(** * WeChat Cover Pro: the composition and export engine of [src/index.tsx]

    A shallow embedding of the handlers of the [App] component
    ([handleImageUpload], [generateCover], [handleMouseMove],
    [downloadImage] and their small siblings) and the properties of the
    crop geometry, of the text re-projection, of the drag clamping and of
    the error paths.

    Numbers.  The crop arithmetic of [downloadImage] is written once, over
    an interface of the operations it uses ([Arith]), and read twice: over
    the rationals ([Q], exact operations), where the general properties are
    proved, and over IEEE-754 binary64 ([Binary64], the numbers JavaScript
    computes with), where the scenarios are evaluated with their rounding.
    The state and the handlers keep their numbers as rationals: every
    finite double is one.  What is proved over the rationals is what the
    rounding of binary64 keeps: the formulas the code evaluates, signs,
    orderings, bounds with a margin, and equalities whose every step is
    exact on integer sizes; an identity that holds only by the laws of a
    field (a quotient times its divisor, say) is not stated, since the
    program may miss it by a rounding error.  Division is only relied upon
    away from a zero divisor (the theorems ask for positive sizes where the
    code divides by one).  Pixel sizes of a decoded image and the byte size
    of a file are integers ([Z]), as the DOM gives them.

    Strings.  A JavaScript string is a sequence of UTF-16 code units
    ([list N]); [lit] embeds an ASCII literal. *)

From Stdlib Require Import ZArith QArith Qminmax Lqa Lia List Bool String Ascii.
From Stdlib Require Import SpecFloat.
From Stdlib Require Import DecimalString DecimalZ.
Import ListNotations.

Local Open Scope Q_scope.

(** ** Strings *)

Definition jsstring : Type := list N.

Definition lit (s : string) : jsstring :=
  List.map N_of_ascii (list_ascii_of_string s).

(** Truthiness of a string: every string but the empty one. *)
Definition truthy (s : jsstring) : bool :=
  match s with
  | [] => false
  | _ :: _ => true
  end.

(** Truthiness of [string | null]. *)
Definition truthy_opt (o : option jsstring) : bool :=
  match o with
  | Some s => truthy s
  | None => false
  end.

(** The code units [String.prototype.trim] strips: ECMAScript's WhiteSpace
    and LineTerminator productions. *)
Definition isWhiteSpace (c : N) : bool :=
  ((c =? 0x0009) || (c =? 0x000A) || (c =? 0x000B) || (c =? 0x000C)
   || (c =? 0x000D) || (c =? 0x0020) || (c =? 0x00A0) || (c =? 0x1680)
   || ((0x2000 <=? c) && (c <=? 0x200A))
   || (c =? 0x2028) || (c =? 0x2029) || (c =? 0x202F) || (c =? 0x205F)
   || (c =? 0x3000) || (c =? 0xFEFF))%N.

Fixpoint trimStart (s : jsstring) : jsstring :=
  match s with
  | [] => []
  | c :: rest => if isWhiteSpace c then trimStart rest else s
  end.

Definition trimEnd (s : jsstring) : jsstring :=
  List.rev (trimStart (List.rev s)).

Definition trim (s : jsstring) : jsstring := trimEnd (trimStart s).

(** A value interpolated in a template literal: [undefined] prints as the
    word. *)
Definition template (o : option jsstring) : jsstring :=
  match o with
  | Some s => s
  | None => lit "undefined"
  end.

(** ** Numbers *)

(** The operations on numbers the export uses. *)
Class Arith (num : Type) : Type := {
  const : Q -> num;               (* a numeric literal *)
  ofZ : Z -> num;                 (* an integer the DOM hands over *)
  sub : num -> num -> num;
  mul : num -> num -> num;
  div : num -> num -> num;
  min2 : num -> num -> num        (* Math.min of two numbers *)
}.

Declare Scope js_scope.
Delimit Scope js_scope with js.
Notation "a - b" := (sub a b) : js_scope.
Notation "a * b" := (mul a b) : js_scope.
Notation "a / b" := (div a b) : js_scope.

(** Exact arithmetic. *)
#[export] Instance Arith_Q : Arith Q := {|
  const := fun q => q;
  ofZ := inject_Z;
  sub := Qminus;
  mul := Qmult;
  div := Qdiv;
  min2 := Qmin
|}.

(** IEEE-754 binary64, round to nearest even: 53 bits of precision,
    exponents below 1024. *)
Module Binary64.
Definition prec : Z := 53.
Definition emax : Z := 1024.

Definition ofZ (z : Z) : spec_float := binary_normalize prec emax z 0 false.
Definition sub : spec_float -> spec_float -> spec_float := SFsub prec emax.
Definition mul : spec_float -> spec_float -> spec_float := SFmul prec emax.
Definition div : spec_float -> spec_float -> spec_float := SFdiv prec emax.

(** A decimal literal denotes the double nearest to it, which the correctly
    rounded quotient of its numerator and denominator is (both are exact). *)
Definition const (q : Q) : spec_float :=
  div (ofZ (Qnum q)) (ofZ (Zpos (Qden q))).

(** The rational a finite double stands for, in lowest terms. *)
Definition value (f : spec_float) : option Q :=
  match f with
  | S754_zero _ => Some 0
  | S754_finite s m e =>
      let q := match e with
               | Zneg p => Zpos m # (2 ^ p)
               | _ => inject_Z (Zpos m * 2 ^ e)
               end in
      Some (Qred (if s then - q else q))
  | S754_infinity _ | S754_nan => None
  end.

(** [Math.min]: NaN if either is, and [-0] below [+0]. *)
Definition min2 (a b : spec_float) : spec_float :=
  match a, b with
  | S754_nan, _ | _, S754_nan => S754_nan
  | S754_zero sa, S754_zero sb => S754_zero (sa || sb)
  | _, _ => if SFltb a b then a else b
  end.
End Binary64.

#[export] Instance Arith_binary64 : Arith spec_float := {|
  const := Binary64.const;
  ofZ := Binary64.ofZ;
  sub := Binary64.sub;
  mul := Binary64.mul;
  div := Binary64.div;
  min2 := Binary64.min2
|}.

(** ** Application state (the [useState] cells of [App]) *)

(** [FONTS[0].value]: the family name is quoted (code unit 34). *)
Definition FONTS_0_value : jsstring :=
  [34%N] ++ lit "Noto Sans SC" ++ [34%N] ++ lit ", sans-serif".

Module OverlayState.
Record t : Type := mk {
  text : jsstring;
  color : jsstring;
  font : jsstring;
  x : Q;           (* Percentage 0-100 *)
  y : Q;           (* Percentage 0-100 *)
  isDragging : bool
}.

(** [{ ...prev, isDragging: b }] *)
Definition with_isDragging (b : bool) (prev : t) : t :=
  mk (text prev) (color prev) (font prev) (x prev) (y prev) b.

(** [{ ...prev, x: x', y: y' }] *)
Definition with_xy (x' y' : Q) (prev : t) : t :=
  mk (text prev) (color prev) (font prev) x' y' (isDragging prev).

(** [{ ...prev, text: s }] *)
Definition with_text (s : jsstring) (prev : t) : t :=
  mk s (color prev) (font prev) (x prev) (y prev) (isDragging prev).

(** [{ ...prev, font: s }] *)
Definition with_font (s : jsstring) (prev : t) : t :=
  mk (text prev) (color prev) s (x prev) (y prev) (isDragging prev).

(** [{ ...prev, color: s }] *)
Definition with_color (s : jsstring) (prev : t) : t :=
  mk (text prev) s (font prev) (x prev) (y prev) (isDragging prev).
End OverlayState.

Inductive Tab : Type := editor | preview.

Module App.
Record t : Type := mk {
  prompt : jsstring;
  refImage : option jsstring;
  generatedImage : option jsstring;
  isGenerating : bool;
  error : option jsstring;
  activeTab : Tab;
  showOverlay : bool;
  overlay : OverlayState.t
}.

Definition init : t :=
  mk [] None None false None editor false
     (OverlayState.mk [] (lit "#ffffff") FONTS_0_value 50 50 false).

Definition setPrompt (v : jsstring) (s : t) : t :=
  mk v (refImage s) (generatedImage s) (isGenerating s) (error s)
     (activeTab s) (showOverlay s) (overlay s).
Definition setRefImage (v : option jsstring) (s : t) : t :=
  mk (prompt s) v (generatedImage s) (isGenerating s) (error s)
     (activeTab s) (showOverlay s) (overlay s).
Definition setGeneratedImage (v : option jsstring) (s : t) : t :=
  mk (prompt s) (refImage s) v (isGenerating s) (error s)
     (activeTab s) (showOverlay s) (overlay s).
Definition setIsGenerating (v : bool) (s : t) : t :=
  mk (prompt s) (refImage s) (generatedImage s) v (error s)
     (activeTab s) (showOverlay s) (overlay s).
Definition setError (v : option jsstring) (s : t) : t :=
  mk (prompt s) (refImage s) (generatedImage s) (isGenerating s) v
     (activeTab s) (showOverlay s) (overlay s).
Definition setActiveTab (v : Tab) (s : t) : t :=
  mk (prompt s) (refImage s) (generatedImage s) (isGenerating s) (error s)
     v (showOverlay s) (overlay s).
Definition setShowOverlay (v : bool) (s : t) : t :=
  mk (prompt s) (refImage s) (generatedImage s) (isGenerating s) (error s)
     (activeTab s) v (overlay s).
(** The functional form [setOverlay(prev => f prev)]. *)
Definition setOverlay (f : OverlayState.t -> OverlayState.t) (s : t) : t :=
  mk (prompt s) (refImage s) (generatedImage s) (isGenerating s) (error s)
     (activeTab s) (showOverlay s) (f (overlay s)).
End App.

(** ** [downloadImage]: crop geometry, text re-projection, font size *)

Inductive ExportType : Type := full | cover | thumb.

(** The natural size of the decoded image ([img.width], [img.height]). *)
Record Image : Type := { width : Z; height : Z }.

Section CropArithmetic.
Context {num : Type} `{Arith num}.
Local Open Scope js_scope.

(** [let targetW, targetH, sx, sy, sw, sh] after the [if] on [type]. *)
Record Geometry : Type := {
  targetW : num; targetH : num;
  sx : num; sy : num; sw : num; sh : num
}.

Definition cropGeometry (type : ExportType) (sourceW sourceH : num)
    : Geometry :=
  match type with
  | full =>
      (* 16:9 *)
      {| targetW := sourceW; targetH := sourceH;
         sx := const 0; sy := const 0; sw := sourceW; sh := sourceH |}
  | cover =>
      (* WeChat Article Cover: 900x383 (Approx 2.35:1) *)
      let targetW := const 900 in
      let targetH := const 383 in
      (* Crop logic: fit width, crop height from center *)
      let scale := sourceW / targetW in
      (* if we fit to width, the height of source used is targetH * scale *)
      let cropHeight := targetH * scale in
      {| targetW := targetW; targetH := targetH;
         sx := const 0;
         sy := (sourceH - cropHeight) / const 2; (* Center vertical crop *)
         sw := sourceW;
         sh := cropHeight |}
  | thumb =>
      (* 1:1 Icon: 500x500 *)
      let side := min2 sourceW sourceH in
      {| targetW := const 500; targetH := const 500;
         sx := (sourceW - side) / const 2;
         sy := (sourceH - side) / const 2;
         sw := side;
         sh := side |}
  end.

(** [pX], [pY], then [textX], [textY], from [overlay.x] and [overlay.y]. *)
Definition textPosition (x y : num) (sourceW sourceH : num) (g : Geometry)
    : num * num :=
  let pX := (x / const 100) * sourceW in
  let pY := (y / const 100) * sourceH in
  let textX := (pX - sx g) * (targetW g / sw g) in
  let textY := (pY - sy g) * (targetH g / sh g) in
  (textX, textY).

Definition fontSizeFor (type : ExportType) (targetH : num) : num :=
  match type with
  | cover => targetH * const 0.15
  | thumb => targetH * const 0.15
  | full => targetH * const 0.08
  end.

End CropArithmetic.

Arguments Geometry num : clear implicits.

(** What [ctx.fillText] receives together with the context properties set
    just before it. *)
Record TextDraw : Type := {
  fontSize : Q;                 (* ctx.font = `bold ${fontSize}px ${overlay.font}` *)
  fontFamily : jsstring;
  textAlign : jsstring;
  textBaseline : jsstring;
  shadowColor : jsstring;
  shadowBlur : Q;
  shadowOffsetX : Q;
  shadowOffsetY : Q;
  fillStyle : jsstring;
  fillText_text : jsstring;
  textX : Q;
  textY : Q
}.

(** [ctx.drawImage(img, sx, sy, sw, sh, dx, dy, dw, dh)] *)
Record DrawImage : Type := {
  src_x : Q; src_y : Q; src_w : Q; src_h : Q;
  dst_x : Q; dst_y : Q; dst_w : Q; dst_h : Q
}.

(** Everything one export does to the canvas and to the download link. *)
Record Export : Type := {
  canvas_width : Q;
  canvas_height : Q;
  drawImage : DrawImage;
  fillText : option TextDraw;
  link_download : ExportType * Z      (* `wechat-${type}-${Date.now()}.png` *)
}.

(** The [if (showOverlay && overlay.text.trim())] block. *)
Definition drawOverlayText (type : ExportType) (showOverlay : bool)
    (ov : OverlayState.t) (sourceW sourceH : Q) (g : Geometry Q)
    : option TextDraw :=
  if showOverlay && truthy (trim (OverlayState.text ov)) then
    let '(textX, textY) :=
      textPosition (OverlayState.x ov) (OverlayState.y ov) sourceW sourceH g in
    let fontSize := fontSizeFor type (targetH g) in
    Some {| fontSize := fontSize;
            fontFamily := OverlayState.font ov;
            textAlign := lit "center";
            textBaseline := lit "middle";
            shadowColor := lit "rgba(0, 0, 0, 0.8)";
            shadowBlur := fontSize / 3;
            shadowOffsetX := 0;
            shadowOffsetY := fontSize / 10;
            fillStyle := OverlayState.color ov;
            fillText_text := OverlayState.text ov;
            textX := textX;
            textY := textY |}
  else None.

(** The body of [img.onload] once the 2d context is there, with the crop
    arithmetic read over the rationals. *)
Definition onload (type : ExportType) (showOverlay : bool)
    (ov : OverlayState.t) (img : Image) (now : Z) : Export :=
  let sourceW : Q := ofZ (width img) in
  let sourceH : Q := ofZ (height img) in
  let g := cropGeometry type sourceW sourceH in
  {| canvas_width := targetW g;
     canvas_height := targetH g;
     drawImage := {| src_x := sx g; src_y := sy g; src_w := sw g; src_h := sh g;
                     dst_x := 0; dst_y := 0;
                     dst_w := targetW g; dst_h := targetH g |};
     fillText := drawOverlayText type showOverlay ov sourceW sourceH g;
     link_download := (type, now) |}.

(** [downloadImage(type)].  [canvas] tells whether [canvasRef.current] is
    set, [ctx] whether [getContext('2d')] gave a context, [decoded] is the
    image the browser decodes from the data URL ([None]: the load event
    never fires), [now] is [Date.now()].  [None]: nothing is exported. *)
Definition downloadImage (st : App.t) (canvas ctx : bool)
    (decoded : option Image) (now : Z) (type : ExportType) : option Export :=
  if negb (truthy_opt (App.generatedImage st)) || negb canvas then None
  else
    match decoded with
    | None => None
    | Some img =>
        if negb ctx then None
        else Some (onload type (App.showOverlay st) (App.overlay st) img now)
    end.

(** ** Dragging *)

(** [getBoundingClientRect()] of the image container. *)
Record DOMRect : Type := { left : Q; top : Q; rect_width : Q; rect_height : Q }.

Record MouseEvent : Type := { clientX : Q; clientY : Q }.

Definition handleMouseDown (st : App.t) : App.t :=
  if negb (App.showOverlay st) then st
  else App.setOverlay (OverlayState.with_isDragging true) st.

(** [container] is [imageContainerRef.current] with its bounding box.  The
    percentages are computed over the rationals; a box of width or height
    zero, where the program divides by zero, is left to the hypotheses of
    the theorems. *)
Definition handleMouseMove (st : App.t) (container : option DOMRect)
    (e : MouseEvent) : App.t :=
  if negb (OverlayState.isDragging (App.overlay st)) then st
  else
    match container with
    | None => st
    | Some rect =>
        let x := ((clientX e - left rect) / rect_width rect) * 100 in
        let y := ((clientY e - top rect) / rect_height rect) * 100 in
        App.setOverlay
          (OverlayState.with_xy (Qmax 0 (Qmin 100 x)) (Qmax 0 (Qmin 100 y))) st
    end.

Definition handleMouseUp (st : App.t) : App.t :=
  App.setOverlay (OverlayState.with_isDragging false) st.

Definition handleGlobalMouseUp (st : App.t) : App.t :=
  if OverlayState.isDragging (App.overlay st)
  then App.setOverlay (OverlayState.with_isDragging false) st
  else st.

(** ** Reference image: upload and refine *)

Record File : Type := { size : Z }.

(** [handleImageUpload].  [files] is [e.target.files]; the second component
    is the file handed to [reader.readAsDataURL], if any. *)
Definition handleImageUpload (st : App.t) (files : option (list File))
    : App.t * option File :=
  match match files with Some l => List.nth_error l 0 | None => None end with
  | Some file =>
      if (size file >? 4 * 1024 * 1024)%Z then
        (App.setError
           (Some (lit "Image size too large. Please choose an image under 4MB."))
           st, None)
      else (st, Some file)
  | None => (st, None)
  end.

(** [reader.onload], run when the read completes; [result] is
    [evt.target?.result]. *)
Definition reader_onload (result : option jsstring) (st : App.t) : App.t :=
  App.setError None (App.setRefImage result st).

Definition handleRefine (st : App.t) : App.t :=
  if truthy_opt (App.generatedImage st)
  then App.setError None (App.setRefImage (App.generatedImage st) st)
  else st.

(** ** [generateCover] *)

(** A thrown value.  Any value but [null] and [undefined] can be asked for
    its [message], which may be missing and otherwise is a string, as the
    constructor of [Error] makes it.  [null] and [undefined] have no
    properties: reading one makes the engine throw a [TypeError], whose
    message (the engine's own) is [typeError]. *)
Inductive JsError : Type :=
| ErrorObject (message : option jsstring)
| Nullish (typeError : jsstring).

(** State threaded through the setters, with exceptions. *)
Definition Eff (A : Type) : Type := App.t -> App.t * (JsError + A).

Definition ret {A : Type} (a : A) : Eff A := fun st => (st, inr a).

Definition bind {A B : Type} (m : Eff A) (k : A -> Eff B) : Eff B :=
  fun st =>
    match m st with
    | (st', inr a) => k a st'
    | (st', inl err) => (st', inl err)
    end.

Definition throw {A : Type} (err : JsError) : Eff A := fun st => (st, inl err).

Definition set (f : App.t -> App.t) : Eff unit := fun st => (f st, inr tt).

(** [try { body } catch (err) { handler err } finally { final }] *)
Definition try_catch_finally (body : Eff unit) (handler : JsError -> Eff unit)
    (final : Eff unit) : Eff unit :=
  fun st =>
    let '(st1, r1) :=
      match body st with
      | (st', inl err) => handler err st'
      | done => done
      end in
    match final st1 with
    | (st2, inr _) => (st2, r1)
    | thrown => thrown
    end.

Notation "x <- m ;; k" := (bind m (fun x => k))
  (at level 61, m at next level, right associativity).
Notation "m ;; k" := (bind m (fun _ => k))
  (at level 61, right associativity).

(** The response of [ai.models.generateContent], as far as it is read. *)
Record Blob : Type := { mimeType : option jsstring; data : option jsstring }.
Record Part : Type := { inlineData : option Blob; part_text : option jsstring }.
Record Content : Type := { parts : option (list Part) }.
Record Candidate : Type := { content : option Content }.
Record Response : Type := { candidates : option (list Candidate) }.

(** [response.candidates?.[0]?.content?.parts || []] *)
Definition responseParts (response : Response) : list Part :=
  match candidates response with
  | Some cs =>
      match List.nth_error cs 0 with
      | Some c =>
          match content c with
          | Some ct =>
              match parts ct with
              | Some ps => ps
              | None => []
              end
          | None => []
          end
      | None => []
      end
  | None => []
  end.

(** The [for ... of] loop with its [break]; the result is [foundImage]. *)
Fixpoint scanParts (ps : list Part) : Eff bool :=
  match ps with
  | [] => ret false
  | part :: rest =>
      match inlineData part with
      | Some blob =>
          set (App.setGeneratedImage
                 (Some (lit "data:image/png;base64," ++ template (data blob))));;
          ret true
      | None => scanParts rest
      end
  end.

(** What the collaborator is called with: the reference image (when there is
    one) and the prompt the instructions are built around. *)
Record Request : Type := {
  req_refImage : option jsstring;
  req_prompt : jsstring
}.

(** How the awaited call ends. *)
Inductive Outcome : Type :=
| Threw (err : JsError)
| Responded (response : Response).

(** The synchronous prefix of [generateCover]: validation, the two setters
    and the request. *)
Definition generateCover_begin (st : App.t) : App.t * option Request :=
  if negb (truthy (trim (App.prompt st))) && negb (truthy_opt (App.refImage st))
  then
    (App.setError
       (Some (lit "Please enter a prompt or upload a reference image.")) st,
     None)
  else
    (App.setError None (App.setIsGenerating true st),
     Some {| req_refImage :=
               if truthy_opt (App.refImage st) then App.refImage st else None;
             req_prompt := App.prompt st |}).

(** The [try] block from the end of the [await] on.  [closure] is the state
    the running [generateCover] closed over: [showOverlay] and [overlay] are
    read from it, the setters act on the current state. *)
Definition generateCover_try (closure : App.t) (outcome : Outcome) : Eff unit :=
  match outcome with
  | Threw err => throw err
  | Responded response =>
      foundImage <- scanParts (responseParts response);;
      (if negb foundImage then
         throw (ErrorObject (Some (lit
           "The model generated text instead of an image. Please try refining your prompt.")))
       else ret tt);;
      set (App.setActiveTab editor);;
      (* Auto-enable text overlay if user has text entered but hidden *)
      if negb (App.showOverlay closure)
         && truthy (OverlayState.text (App.overlay closure))
      then set (App.setShowOverlay true)
      else ret tt
  end.

(** [err.message || "Failed to generate image."]; on [null] and
    [undefined] the read of [message] throws. *)
Definition errorMessage (err : JsError) : Eff jsstring :=
  match err with
  | ErrorObject (Some m) =>
      ret (if truthy m then m else lit "Failed to generate image.")
  | ErrorObject None => ret (lit "Failed to generate image.")
  | Nullish typeError => throw (ErrorObject (Some typeError))
  end.

(** The rest of [generateCover] once the collaborator has answered. *)
Definition generateCover_settle (closure : App.t) (outcome : Outcome)
    : Eff unit :=
  try_catch_finally
    (generateCover_try closure outcome)
    (fun err => msg <- errorMessage err;; set (App.setError (Some msg)))
    (set (App.setIsGenerating false)).

(** [generateCover] with no other event between the call and its answer. *)
Definition generateCover (collaborator : Request -> Outcome) (st : App.t)
    : App.t * (JsError + unit) :=
  match generateCover_begin st with
  | (st1, None) => (st1, inr tt)
  | (st1, Some req) => generateCover_settle st (collaborator req) st1
  end.

(** ** The events of the component *)

Inductive Event : Type :=
| PromptChange (value : jsstring)            (* setPrompt(e.target.value) *)
| FileChosen (files : option (list File))    (* handleImageUpload *)
| FileRead (result : option jsstring)        (* reader.onload *)
| RefImageRemoved                            (* setRefImage(null) *)
| RefineClicked                              (* handleRefine *)
| OverlayToggled                             (* setShowOverlay(!showOverlay) *)
| OverlayTextChange (value : jsstring)
| OverlayFontChange (value : jsstring)
| OverlayColorChange (value : jsstring)
| GenerateClicked                            (* generateCover, to its await *)
| GenerateSettled (closure : App.t) (outcome : Outcome)
| TabClicked (tab : Tab)                     (* setActiveTab(tab) *)
| MouseDown
| MouseMove (container : option DOMRect) (e : MouseEvent)
| MouseUp
| MouseLeave                                 (* onMouseLeave={handleMouseUp} *)
| WindowMouseUp.                             (* handleGlobalMouseUp *)

Definition react (ev : Event) (st : App.t) : App.t :=
  match ev with
  | PromptChange value => App.setPrompt value st
  | FileChosen files => fst (handleImageUpload st files)
  | FileRead result => reader_onload result st
  | RefImageRemoved => App.setRefImage None st
  | RefineClicked => handleRefine st
  | OverlayToggled => App.setShowOverlay (negb (App.showOverlay st)) st
  | OverlayTextChange value => App.setOverlay (OverlayState.with_text value) st
  | OverlayFontChange value => App.setOverlay (OverlayState.with_font value) st
  | OverlayColorChange value =>
      App.setOverlay (OverlayState.with_color value) st
  | GenerateClicked => fst (generateCover_begin st)
  | GenerateSettled closure outcome =>
      fst (generateCover_settle closure outcome st)
  | TabClicked tab => App.setActiveTab tab st
  | MouseDown => handleMouseDown st
  | MouseMove container e => handleMouseMove st container e
  | MouseUp => handleMouseUp st
  | MouseLeave => handleMouseUp st
  | WindowMouseUp => handleGlobalMouseUp st
  end.

(** A pointer move reports a bounding box of positive width and height. *)
Definition boxed (ev : Event) : Prop :=
  match ev with
  | MouseMove (Some rect) _ => 0 < rect_width rect /\ 0 < rect_height rect
  | _ => True
  end.

(** The states the component goes through from its initial state. *)
Inductive Reachable : App.t -> Prop :=
| Reachable_init : Reachable App.init
| Reachable_react (st : App.t) (ev : Event) :
    Reachable st -> boxed ev -> Reachable (react ev st).

(** The overlay position is a pair of percentages. *)
Definition positionInRange (st : App.t) : Prop :=
  (0 <= OverlayState.x (App.overlay st)
   /\ OverlayState.x (App.overlay st) <= 100)
  /\ (0 <= OverlayState.y (App.overlay st)
      /\ OverlayState.y (App.overlay st) <= 100).

(** ** Failed generations *)

(** A generation that fails: the call throws, or no part of the response
    carries [inlineData]. *)
Definition hasImagePart (response : Response) : bool :=
  List.existsb
    (fun part => match inlineData part with Some _ => true | None => false end)
    (responseParts response).

Definition generationFails (outcome : Outcome) : bool :=
  match outcome with
  | Threw _ => true
  | Responded response => negb (hasImagePart response)
  end.

(** The call was rejected with [null] or [undefined]. *)
Definition throwsNullish (outcome : Outcome) : bool :=
  match outcome with
  | Threw (Nullish _) => true
  | _ => false
  end.

(** The message a failed generation is to be reported with: the thrown
    value's own message when it has a non-empty one, a default one
    otherwise, and a fixed one for an answer without image; none for a
    rejection with [null] or [undefined]. *)
Definition failureMessage (outcome : Outcome) : jsstring :=
  match outcome with
  | Threw (ErrorObject (Some (c :: m))) => c :: m
  | Threw (ErrorObject _) => lit "Failed to generate image."
  | Threw (Nullish _) => []
  | Responded _ =>
      lit "The model generated text instead of an image. Please try refining your prompt."
  end.

(** The message the page shows: [{error && (<div ...>{error}</div>)}]. *)
Definition errorBanner (st : App.t) : option jsstring :=
  if truthy_opt (App.error st) then App.error st else None.

(** ** The request for a reference image *)

(** [s.split(sep)] for a separator of one code unit: the pieces between the
    separators, one more than there are separators. *)
Fixpoint split (sep : N) (s : jsstring) : list jsstring :=
  match s with
  | [] => [[]]
  | c :: rest =>
      if (c =? sep)%N then [] :: split sep rest
      else
        match split sep rest with
        | piece :: pieces => (c :: piece) :: pieces
        | [] => [[c]]
        end
  end.

(** [refImage.split(',')[1]] *)
Definition base64Data (refImage : jsstring) : option jsstring :=
  List.nth_error (split 44 refImage) 1.

(** [refImage.split(';')[0].split(':')[1]]; a split has a first piece. *)
Definition refMimeType (refImage : jsstring) : option jsstring :=
  List.nth_error (split 58 (List.hd [] (split 59 refImage))) 1.

(** The part pushed for the reference image:
    [{ inlineData: { mimeType, data: base64Data } }]. *)
Definition refImagePart (refImage : jsstring) : Part :=
  {| inlineData := Some {| mimeType := refMimeType refImage;
                           data := base64Data refImage |};
     part_text := None |}.

(** The parts of the request ahead of the instructions:
    [if (refImage) parts.push(...)]. *)
Definition referenceParts (req : Request) : list Part :=
  match req_refImage req with
  | Some refImage => [refImagePart refImage]
  | None => []
  end.

(** ** What the screen shows of the overlay *)

(** The editor and the feed preview render the overlay under
    [showOverlay && overlay.text]. *)
Definition overlayShown (st : App.t) : bool :=
  App.showOverlay st && truthy (OverlayState.text (App.overlay st)).


(** ** The name of the downloaded file *)

Definition exportTypeName (type : ExportType) : jsstring :=
  match type with
  | full => lit "full"
  | cover => lit "cover"
  | thumb => lit "thumb"
  end.

(** An integer in a template literal: its decimal digits, after a minus
    sign when it is negative (the form of every integer below 10^21 in
    magnitude, as a time value is). *)
Definition decimal (z : Z) : jsstring :=
  lit (NilEmpty.string_of_int (Z.to_int z)).

(** [`wechat-${type}-${Date.now()}.png`] *)
Definition downloadName (type : ExportType) (now : Z) : jsstring :=
  lit "wechat-" ++ exportTypeName type ++ lit "-" ++ decimal now ++ lit ".png".

(** ** Shapes of inputs *)

(** A string of white space only (the empty string is one). *)
Definition blank (s : jsstring) : bool := List.forallb isWhiteSpace s.

(** A string without the code unit [c]. *)
Definition lacks (c : N) (s : jsstring) : bool :=
  List.forallb (fun u => negb (u =? c)%N) s.

(** The first part of a response that carries [inlineData]. *)
Definition firstImagePart (response : Response) : option Blob :=
  match List.find
          (fun part =>
             match inlineData part with Some _ => true | None => false end)
          (responseParts response) with
  | Some part => inlineData part
  | None => None
  end.

(** The prefix [generateCover] puts before the image data. *)
Definition pngPrefix : jsstring := lit "data:image/png;base64,".

(** A generated image, when there is one, is a PNG data URL. *)
Definition generatedImageIsPng (st : App.t) : Prop :=
  match App.generatedImage st with
  | None => True
  | Some url => exists payload, url = pngPrefix ++ payload
  end.

(** ** Proof automation *)

(** [lra] does not divide: a division by a literal becomes a product. *)
Ltac qconst :=
  unfold Qdiv in *;
  repeat match goal with
         | |- context [Qinv (Qmake ?n ?d)] =>
             let v := eval vm_compute in (Qinv (Qmake n d)) in
             change (Qinv (Qmake n d)) with v
         | H : context [Qinv (Qmake ?n ?d)] |- _ =>
             let v := eval vm_compute in (Qinv (Qmake n d)) in
             change (Qinv (Qmake n d)) with v in H
         end.

(** The crop arithmetic read over the rationals. *)
Ltac exact_arith :=
  cbn [cropGeometry textPosition fontSizeFor
       targetW targetH sx sy sw sh fst snd
       const ofZ sub mul div min2 Arith_Q] in *.

(** * Properties *)

(** ** Helper facts *)

Lemma inject_Z_pos (z : Z) : (0 < z)%Z -> 0 < inject_Z z.
Proof.
  intro Hz. change 0 with (inject_Z 0). now rewrite <- Zlt_Qlt.
Qed.

(** The overlay block runs when the overlay is shown and its text keeps a
    code unit after trimming, and only then. *)
Lemma drawOverlayText_drawn (type : ExportType) (ov : OverlayState.t)
    (sourceW sourceH : Q) (g : Geometry Q) :
  truthy (trim (OverlayState.text ov)) = true ->
  exists d,
    drawOverlayText type true ov sourceW sourceH g = Some d
    /\ fontSize d = fontSizeFor type (targetH g)
    /\ textX d = fst (textPosition (OverlayState.x ov) (OverlayState.y ov)
                        sourceW sourceH g)
    /\ textY d = snd (textPosition (OverlayState.x ov) (OverlayState.y ov)
                        sourceW sourceH g)
    /\ fillText_text d = OverlayState.text ov.
Proof.
  intro Ht. unfold drawOverlayText. rewrite Ht. cbn [andb].
  unfold textPosition. eexists. split; [reflexivity|]. cbn. auto.
Qed.

Lemma drawOverlayText_none (type : ExportType) (showOverlay : bool)
    (ov : OverlayState.t) (sourceW sourceH : Q) (g : Geometry Q) :
  drawOverlayText type showOverlay ov sourceW sourceH g = None
  <-> showOverlay = false \/ truthy (trim (OverlayState.text ov)) = false.
Proof.
  unfold drawOverlayText.
  destruct showOverlay, (truthy (trim (OverlayState.text ov))); cbn;
    split; intro Hx; try discriminate; auto; destruct Hx; discriminate.
Qed.

(** ** Crop geometry *)

(** C1.  For a source of positive size the [cover] export sets the canvas to
    900 x 383 and draws the source rectangle [sx = 0], [sw = sourceW],
    [sh = cropHeight = 383 * (sourceW / 900)],
    [sy = (sourceH - cropHeight) / 2]; nothing clamps [sy], which is negative
    exactly when [sourceH < cropHeight].  For 1600 x 900 the crop height is
    6128/9 (681 to the nearest unit) and [sy] is 986/9 (109.5 within a
    tenth); computed in binary64 they are the doubles next to these. *)
Theorem cover_geometry :
  (forall (show : bool) (ov : OverlayState.t) (img : Image) (now : Z),
      (0 < width img)%Z -> (0 < height img)%Z ->
      let sourceW := inject_Z (width img) in
      let sourceH := inject_Z (height img) in
      let scale := sourceW / 900 in
      let cropHeight := 383 * scale in
      let e := onload cover show ov img now in
      canvas_width e == 900 /\ canvas_height e == 383
      /\ dst_w (drawImage e) == 900 /\ dst_h (drawImage e) == 383
      /\ src_x (drawImage e) == 0
      /\ src_y (drawImage e) == (sourceH - cropHeight) / 2
      /\ src_w (drawImage e) == sourceW
      /\ src_h (drawImage e) == cropHeight
      /\ 0 < cropHeight
      /\ (src_y (drawImage e) < 0 <-> sourceH < cropHeight))
  /\ (let g := cropGeometry cover 1600 900 in
      targetW g == 900 /\ targetH g == 383 /\ sx g == 0 /\ sw g == 1600
      /\ sh g == (6128 # 9) /\ 680.5 < sh g /\ sh g < 681.5
      /\ sy g == (986 # 9) /\ 109.4 < sy g /\ sy g < 109.6)
  /\ (let g := cropGeometry (num := spec_float) cover (ofZ 1600) (ofZ 900) in
      targetW g = ofZ 900 /\ targetH g = ofZ 383
      /\ sx g = ofZ 0 /\ sw g = ofZ 1600
      /\ (exists v, Binary64.value (sh g) = Some v
                    /\ (6128 # 9) - (1 # 10 ^ 12) < v
                    /\ v < (6128 # 9) + (1 # 10 ^ 12))
      /\ (exists v, Binary64.value (sy g) = Some v
                    /\ (986 # 9) - (1 # 10 ^ 12) < v
                    /\ v < (986 # 9) + (1 # 10 ^ 12))).
Proof.
  split; [|split].
  - intros show ov [w h] now Hw Hh. cbn [width height] in *.
    apply inject_Z_pos in Hw. cbn.
    repeat split; try reflexivity; qconst; lra.
  - vm_compute. repeat split; reflexivity.
  - vm_compute.
    repeat split; eexists; (split; [reflexivity|]); split; reflexivity.
Qed.

(** A 1600 x 600 source is lower than the crop: [sy] is negative. *)
Lemma cover_geometry_witness :
  (0 < 1600)%Z /\ (0 < 600)%Z
  /\ src_y (drawImage (onload cover false
                          (App.overlay App.init)
                          {| width := 1600; height := 600 |} 0)) < 0.
Proof.
  split; [lia|]. split; [lia|].
  destruct cover_geometry as [Hgen _].
  destruct (Hgen false (App.overlay App.init)
                 {| width := 1600; height := 600 |} 0%Z eq_refl eq_refl)
    as (_ & _ & _ & _ & _ & _ & _ & _ & _ & Hneg).
  apply Hneg. reflexivity.
Defined.

(** C2.  The [thumb] (icon) export sets the canvas to 500 x 500 and draws a
    square of side [min sourceW sourceH] whose centre is the centre of the
    source: [sx + sw/2 = sourceW/2] and [sy + sh/2 = sourceH/2].  This holds
    for every size, so for every positive one. *)
Theorem thumb_square_centered (show : bool) (ov : OverlayState.t)
    (img : Image) (now : Z) :
  let sourceW := inject_Z (width img) in
  let sourceH := inject_Z (height img) in
  let e := onload thumb show ov img now in
  let d := drawImage e in
  canvas_width e == 500 /\ canvas_height e == 500
  /\ dst_w d == 500 /\ dst_h d == 500
  /\ src_w d == Qmin sourceW sourceH
  /\ src_h d == Qmin sourceW sourceH
  /\ src_x d + src_w d / 2 == sourceW / 2
  /\ src_y d + src_h d / 2 == sourceH / 2.
Proof.
  destruct img as [w h]. cbn.
  repeat split; try reflexivity; field.
Qed.

(** C10.  The source rectangle of the [thumb] (icon) export lies inside the
    source image: [0 <= sx], [0 <= sy], [sx + sw <= sourceW] and
    [sy + sh <= sourceH].  This holds for every size, so for every positive
    one. *)
Theorem thumb_crop_within_source (show : bool) (ov : OverlayState.t)
    (img : Image) (now : Z) :
  let sourceW := inject_Z (width img) in
  let sourceH := inject_Z (height img) in
  let d := drawImage (onload thumb show ov img now) in
  0 <= src_x d /\ 0 <= src_y d
  /\ src_x d + src_w d <= sourceW
  /\ src_y d + src_h d <= sourceH.
Proof.
  destruct img as [w h]. cbn.
  pose proof (Q.le_min_l (inject_Z w) (inject_Z h)) as Hl.
  pose proof (Q.le_min_r (inject_Z w) (inject_Z h)) as Hr.
  repeat split; qconst; lra.
Qed.

(** ** Text re-projection *)

(** C3.  For a source of positive size the [full] export draws the whole
    image, [(0, 0, sourceW, sourceH)], on a canvas of the size of the source,
    and under that geometry the re-projected text position is the plain
    percentage-of-size position [(x/100 * sourceW, y/100 * sourceH)]: so it is
    for the position [textPosition] computes, and so it is for the text the
    export draws when the overlay is shown with text left after trimming.
    The position need not lie in [0,100] x [0,100]. *)
Theorem full_geometry_identity (ov : OverlayState.t) (img : Image) (now : Z)
    (Hw : (0 < width img)%Z) (Hh : (0 < height img)%Z) :
  let sourceW := inject_Z (width img) in
  let sourceH := inject_Z (height img) in
  let g := cropGeometry full sourceW sourceH in
  let x := OverlayState.x ov in
  let y := OverlayState.y ov in
  g = {| targetW := sourceW; targetH := sourceH;
         sx := 0; sy := 0; sw := sourceW; sh := sourceH |}
  /\ (forall show : bool,
         let e := onload full show ov img now in
         canvas_width e = sourceW /\ canvas_height e = sourceH
         /\ drawImage e = {| src_x := 0; src_y := 0;
                             src_w := sourceW; src_h := sourceH;
                             dst_x := 0; dst_y := 0;
                             dst_w := sourceW; dst_h := sourceH |})
  /\ fst (textPosition x y sourceW sourceH g) == x / 100 * sourceW
  /\ snd (textPosition x y sourceW sourceH g) == y / 100 * sourceH
  /\ (truthy (trim (OverlayState.text ov)) = true ->
      exists d, fillText (onload full true ov img now) = Some d
                /\ textX d == x / 100 * sourceW
                /\ textY d == y / 100 * sourceH).
Proof.
  destruct img as [w h]. cbn [width height] in *.
  apply inject_Z_pos in Hw, Hh.
  assert (Hx : fst (textPosition (OverlayState.x ov) (OverlayState.y ov)
                      (inject_Z w) (inject_Z h)
                      (cropGeometry full (inject_Z w) (inject_Z h)))
               == OverlayState.x ov / 100 * inject_Z w)
    by (exact_arith; field; lra).
  assert (Hy : snd (textPosition (OverlayState.x ov) (OverlayState.y ov)
                      (inject_Z w) (inject_Z h)
                      (cropGeometry full (inject_Z w) (inject_Z h)))
               == OverlayState.y ov / 100 * inject_Z h)
    by (exact_arith; field; lra).
  cbv zeta. split; [reflexivity|]. split; [intros show; cbn; auto|].
  split; [exact Hx|]. split; [exact Hy|].
  intro Ht.
  destruct (drawOverlayText_drawn full ov (inject_Z w) (inject_Z h)
              (cropGeometry full (inject_Z w) (inject_Z h)) Ht)
    as (d & Hd & _ & Hdx & Hdy & _).
  exists d. split; [exact Hd|]. rewrite Hdx, Hdy. split; assumption.
Qed.

(** A quarter across and four fifths down a 1600 x 900 image. *)
Lemma full_geometry_identity_witness :
  (0 < 1600)%Z /\ (0 < 900)%Z
  /\ fst (textPosition 25 80 1600 900 (cropGeometry full 1600 900)) == 400
  /\ snd (textPosition 25 80 1600 900 (cropGeometry full 1600 900)) == 720.
Proof.
  split; [lia|]. split; [lia|].
  destruct (full_geometry_identity
              (OverlayState.mk (lit "Hi") [] [] 25 80 false)
              {| width := 1600; height := 900 |} 0%Z eq_refl eq_refl)
    as (_ & _ & Hx & Hy & _).
  cbn [OverlayState.x OverlayState.y width height] in Hx, Hy.
  split; [rewrite Hx | rewrite Hy]; reflexivity.
Defined.

(** C4.  Scenario B: with the overlay at [x = 50], [y = 50] and a
    1200 x 800 source, the [thumb] (icon) export crops a square of side 800
    at [sx = 200], [sy = 0], and the re-projected text position is exactly
    (250, 250), the centre of the 500 x 500 output, both as [textPosition]
    computes it and as the drawn text has it.  In binary64 every step is
    exact and the result is the same. *)
Theorem scenario_B_icon_center (ov : OverlayState.t) (now : Z)
    (Hx : OverlayState.x ov == 50) (Hy : OverlayState.y ov == 50) :
  let img := {| width := 1200; height := 800 |} in
  let g := cropGeometry thumb 1200 800 in
  let x := OverlayState.x ov in
  let y := OverlayState.y ov in
  sw g == 800 /\ sh g == 800 /\ sx g == 200 /\ sy g == 0
  /\ targetW g == 500 /\ targetH g == 500
  /\ (forall show : bool,
         let d := drawImage (onload thumb show ov img now) in
         src_x d == 200 /\ src_y d == 0 /\ src_w d == 800 /\ src_h d == 800)
  /\ fst (textPosition x y 1200 800 g) == 250
  /\ snd (textPosition x y 1200 800 g) == 250
  /\ (truthy (trim (OverlayState.text ov)) = true ->
      exists d, fillText (onload thumb true ov img now) = Some d
                /\ textX d == 250 /\ textY d == 250)
  /\ (let gd := cropGeometry (num := spec_float) thumb (ofZ 1200) (ofZ 800) in
      sw gd = ofZ 800 /\ sh gd = ofZ 800 /\ sx gd = ofZ 200 /\ sy gd = ofZ 0
      /\ textPosition (const 50) (const 50) (ofZ 1200) (ofZ 800) gd
         = (ofZ 250, ofZ 250)).
Proof.
  assert (Htx : fst (textPosition (OverlayState.x ov) (OverlayState.y ov)
                       1200 800 (cropGeometry thumb 1200 800)) == 250)
    by (cbn; rewrite Hx; reflexivity).
  assert (Hty : snd (textPosition (OverlayState.x ov) (OverlayState.y ov)
                       1200 800 (cropGeometry thumb 1200 800)) == 250)
    by (cbn; rewrite Hy; reflexivity).
  cbv zeta.
  repeat (split; [reflexivity|]).
  split; [intros show; cbn; repeat split; reflexivity|].
  split; [exact Htx|]. split; [exact Hty|].
  split; [|vm_compute; repeat split].
  intro Ht.
  destruct (drawOverlayText_drawn thumb ov 1200 800
              (cropGeometry thumb 1200 800) Ht)
    as (d & Hd & _ & Hdx & Hdy & _).
  exists d. split; [exact Hd|]. rewrite Hdx, Hdy. split; assumption.
Qed.

Lemma scenario_B_icon_center_witness :
  exists d,
    fillText (onload thumb true
                (OverlayState.mk (lit "Hello") (lit "#ffffff") FONTS_0_value
                   50 50 false)
                {| width := 1200; height := 800 |} 0)
    = Some d
    /\ textX d == 250 /\ textY d == 250.
Proof.
  destruct (scenario_B_icon_center
              (OverlayState.mk (lit "Hello") (lit "#ffffff") FONTS_0_value
                 50 50 false)
              0%Z (Qeq_refl 50) (Qeq_refl 50))
    as (_ & _ & _ & _ & _ & _ & _ & _ & _ & Hdraw & _).
  apply Hdraw. reflexivity.
Defined.

(** ** Dragging *)

Lemma clamp_bounds (v : Q) :
  0 <= Qmax 0 (Qmin 100 v) /\ Qmax 0 (Qmin 100 v) <= 100.
Proof.
  destruct (Q.max_spec 0 (Qmin 100 v)) as [[? E] | [? E]];
    destruct (Q.min_spec 100 v) as [[? F] | [? F]]; split; lra.
Qed.

Lemma clamp_cases (v : Q) :
  (v < 0 -> Qmax 0 (Qmin 100 v) == 0)
  /\ (0 <= v <= 100 -> Qmax 0 (Qmin 100 v) == v)
  /\ (100 < v -> Qmax 0 (Qmin 100 v) == 100).
Proof.
  destruct (Q.max_spec 0 (Qmin 100 v)) as [[? E] | [? E]];
    destruct (Q.min_spec 100 v) as [[? F] | [? F]];
    repeat split; intros;
    try match goal with Hv : _ /\ _ |- _ => destruct Hv end; lra.
Qed.

(** C5.  On a pointer move during a drag, with the container mounted and a
    bounding box of positive width and height, [handleMouseMove] stores
    [x = clamp ((clientX - left) / width * 100)] and
    [y = clamp ((clientY - top) / height * 100)], where [clamp] is
    [max 0 (min 100 _)]: the stored [x] and [y] lie in [0,100] wherever the
    pointer is (0 when the raw value is negative, 100 when it exceeds 100,
    the raw value otherwise), and nothing else of the state changes. *)
Theorem drag_move_clamped (st : App.t) (rect : DOMRect) (e : MouseEvent)
    (Hdrag : OverlayState.isDragging (App.overlay st) = true)
    (Hw : 0 < rect_width rect) (Hh : 0 < rect_height rect) :
  let rawX := (clientX e - left rect) / rect_width rect * 100 in
  let rawY := (clientY e - top rect) / rect_height rect * 100 in
  let st' := handleMouseMove st (Some rect) e in
  let x' := OverlayState.x (App.overlay st') in
  let y' := OverlayState.y (App.overlay st') in
  x' = Qmax 0 (Qmin 100 rawX) /\ y' = Qmax 0 (Qmin 100 rawY)
  /\ (0 <= x' /\ x' <= 100) /\ (0 <= y' /\ y' <= 100)
  /\ (rawX < 0 -> x' == 0) /\ (100 < rawX -> x' == 100)
  /\ (0 <= rawX <= 100 -> x' == rawX)
  /\ (rawY < 0 -> y' == 0) /\ (100 < rawY -> y' == 100)
  /\ (0 <= rawY <= 100 -> y' == rawY)
  /\ st' = App.setOverlay (OverlayState.with_xy x' y') st.
Proof.
  unfold handleMouseMove. rewrite Hdrag. cbn.
  set (rawX := (clientX e - left rect) / rect_width rect * 100).
  set (rawY := (clientY e - top rect) / rect_height rect * 100).
  destruct (clamp_cases rawX) as (Hx1 & Hx2 & Hx3).
  destruct (clamp_cases rawY) as (Hy1 & Hy2 & Hy3).
  repeat split; try reflexivity; try apply clamp_bounds; assumption.
Qed.

(** The pointer is left of and below a 400 x 225 box at (100, 50). *)
Lemma drag_move_clamped_witness :
  let st := App.setOverlay (OverlayState.with_isDragging true) App.init in
  let st' := handleMouseMove st
               (Some {| left := 100; top := 50;
                        rect_width := 400; rect_height := 225 |})
               {| clientX := 20; clientY := 500 |} in
  OverlayState.x (App.overlay st') == 0
  /\ OverlayState.y (App.overlay st') == 100.
Proof.
  cbv zeta.
  destruct (drag_move_clamped
              (App.setOverlay (OverlayState.with_isDragging true) App.init)
              {| left := 100; top := 50;
                 rect_width := 400; rect_height := 225 |}
              {| clientX := 20; clientY := 500 |}
              eq_refl eq_refl eq_refl)
    as (_ & _ & _ & _ & Hx & _ & _ & _ & Hy & _).
  split; [apply Hx | apply Hy]; reflexivity.
Defined.

(** ** Overlay text in the export *)

(** C6.  In every export kind, when the overlay is disabled
    ([showOverlay = false], whatever [overlay.text] holds) or the overlay
    text is empty, the export draws no text: neither the [onload] body nor
    any export [downloadImage] produces calls [fillText]. *)
Theorem no_text_when_disabled_or_empty (type : ExportType) (st : App.t)
    (Hoff : App.showOverlay st = false
            \/ OverlayState.text (App.overlay st) = []) :
  (forall (img : Image) (now : Z),
      fillText (onload type (App.showOverlay st) (App.overlay st) img now)
      = None)
  /\ (forall (canvas ctx : bool) (decoded : option Image) (now : Z) (e : Export),
         downloadImage st canvas ctx decoded now type = Some e ->
         fillText e = None).
Proof.
  assert (Hnone : forall img now,
             fillText (onload type (App.showOverlay st) (App.overlay st)
                         img now) = None).
  { intros img now. cbn. apply drawOverlayText_none.
    destruct Hoff as [Hs | Ht]; [left; exact Hs | right].
    rewrite Ht. reflexivity. }
  split; [exact Hnone|].
  intros canvas ctx decoded now e. unfold downloadImage.
  destruct (negb (truthy_opt (App.generatedImage st)) || negb canvas);
    [discriminate|].
  destruct decoded as [img|]; [|discriminate].
  destruct (negb ctx); [discriminate|].
  intro He. injection He as <-. apply Hnone.
Qed.

(** The overlay is disabled while [overlay.text] is "Title"; the three kinds
    are exported and none draws text. *)
Lemma no_text_when_disabled_or_empty_witness :
  let st := App.setGeneratedImage (Some (lit "data:image/png;base64,AAAA"))
              (App.setOverlay (OverlayState.with_text (lit "Title")) App.init) in
  let img := {| width := 1600; height := 900 |} in
  OverlayState.text (App.overlay st) <> []
  /\ (exists e, downloadImage st true true (Some img) 0 full = Some e
                /\ fillText e = None)
  /\ (exists e, downloadImage st true true (Some img) 0 cover = Some e
                /\ fillText e = None)
  /\ (exists e, downloadImage st true true (Some img) 0 thumb = Some e
                /\ fillText e = None).
Proof.
  cbv zeta. split; [discriminate|].
  repeat split; eexists; (split; [reflexivity|]);
    match goal with
    | |- fillText (onload ?ty _ _ _ _) = None =>
        apply (no_text_when_disabled_or_empty ty
                 (App.setGeneratedImage
                    (Some (lit "data:image/png;base64,AAAA"))
                    (App.setOverlay (OverlayState.with_text (lit "Title"))
                       App.init))
                 (or_introl eq_refl))
    end.
Defined.

(** C7, as stated, fails: with the overlay enabled and the text a single
    space (non-empty), no export kind draws text, so no font size is ever
    set; the guard tests [overlay.text.trim()]. *)
Lemma fontSize_blank_text_counterexample :
  OverlayState.text (OverlayState.mk [32%N] (lit "#ffffff") FONTS_0_value
                       50 50 false) <> []
  /\ fillText (onload cover true
                 (OverlayState.mk [32%N] (lit "#ffffff") FONTS_0_value
                    50 50 false)
                 {| width := 1600; height := 900 |} 0) = None
  /\ fillText (onload thumb true
                 (OverlayState.mk [32%N] (lit "#ffffff") FONTS_0_value
                    50 50 false)
                 {| width := 1600; height := 900 |} 0) = None
  /\ fillText (onload full true
                 (OverlayState.mk [32%N] (lit "#ffffff") FONTS_0_value
                    50 50 false)
                 {| width := 1600; height := 900 |} 0) = None
  /\ ~ (forall (type : ExportType) (ov : OverlayState.t) (img : Image)
              (now : Z),
           OverlayState.text ov <> [] ->
           exists d,
             fillText (onload type true ov img now) = Some d
             /\ fontSize d
                == match type with
                   | cover | thumb =>
                       canvas_height (onload type true ov img now) * 0.15
                   | full =>
                       canvas_height (onload type true ov img now) * 0.08
                   end).
Proof.
  split; [discriminate|]. repeat (split; [reflexivity|]).
  intro Hclaim.
  destruct (Hclaim cover
              (OverlayState.mk [32%N] (lit "#ffffff") FONTS_0_value
                 50 50 false)
              {| width := 1600; height := 900 |} 0%Z)
    as (d & Hd & _); discriminate.
Qed.

(** C7, amended.  When the overlay is enabled and its text is non-empty
    after trimming white space, the export draws the text with a font size
    of [targetH * 0.15] for the [cover] and [thumb] (icon) kinds, that is
    57.45 and 75, and of [targetH * 0.08] for the [full] kind, that is
    [sourceH * 0.08]. *)
Theorem fontSize_by_kind (type : ExportType) (ov : OverlayState.t)
    (img : Image) (now : Z)
    (Htext : truthy (trim (OverlayState.text ov)) = true) :
  let e := onload type true ov img now in
  exists d, fillText e = Some d
            /\ fontSize d == match type with
                             | cover | thumb => canvas_height e * 0.15
                             | full => canvas_height e * 0.08
                             end
            /\ fontSize d == match type with
                             | cover => 57.45
                             | thumb => 75
                             | full => inject_Z (height img) * 0.08
                             end.
Proof.
  cbv zeta.
  destruct (drawOverlayText_drawn type ov (inject_Z (width img))
              (inject_Z (height img))
              (cropGeometry type (inject_Z (width img))
                 (inject_Z (height img))) Htext)
    as (d & Hd & Hsize & _).
  exists d. split; [exact Hd|]. rewrite Hsize.
  destruct type; cbn; split; reflexivity.
Qed.

Lemma fontSize_by_kind_witness :
  exists d,
    fillText (onload full true
                (OverlayState.mk (lit " Title ") (lit "#ffffff") FONTS_0_value
                   50 50 false)
                {| width := 1600; height := 900 |} 0) = Some d
    /\ fontSize d == 72.
Proof.
  destruct (fontSize_by_kind full
              (OverlayState.mk (lit " Title ") (lit "#ffffff") FONTS_0_value
                 50 50 false)
              {| width := 1600; height := 900 |} 0%Z eq_refl)
    as (d & Hd & _ & Hsize).
  exists d. split; [exact Hd|]. rewrite Hsize. reflexivity.
Defined.

(** ** Error paths *)

(** C8.  A file of more than 4 MiB (4 * 1024 * 1024 bytes) makes
    [handleImageUpload] set the error message and return: no read is
    started, and the reference image, the generated image, the overlay and
    its switch are as before.  A file of at most 4 MiB is accepted: it is
    handed to the reader with the state untouched, and when the read
    completes [reader.onload] stores its result as the reference image and
    clears the error. *)
Theorem upload_size_limit (st : App.t) (file : File) (others : list File) :
  let r := handleImageUpload st (Some (file :: others)) in
  ((size file > 4 * 1024 * 1024)%Z ->
     snd r = None
     /\ fst r = App.setError
                  (Some (lit "Image size too large. Please choose an image under 4MB."))
                  st
     /\ App.error (fst r)
        = Some (lit "Image size too large. Please choose an image under 4MB.")
     /\ App.refImage (fst r) = App.refImage st
     /\ App.generatedImage (fst r) = App.generatedImage st
     /\ App.overlay (fst r) = App.overlay st
     /\ App.showOverlay (fst r) = App.showOverlay st)
  /\ ((size file <= 4 * 1024 * 1024)%Z ->
        r = (st, Some file)
        /\ forall (result : option jsstring) (st1 : App.t),
             App.refImage (reader_onload result st1) = result
             /\ App.error (reader_onload result st1) = None
             /\ App.generatedImage (reader_onload result st1)
                = App.generatedImage st1
             /\ App.overlay (reader_onload result st1) = App.overlay st1).
Proof.
  cbv zeta. unfold handleImageUpload. cbn [List.nth_error].
  split; intro Hsize.
  - apply Z.gtb_gt in Hsize. rewrite Hsize. cbn. repeat split.
  - assert (Hle : (size file >? 4 * 1024 * 1024)%Z = false)
      by (rewrite Z.gtb_ltb; apply Z.ltb_ge; exact Hsize).
    rewrite Hle. split; [reflexivity|]. intros result st1. cbn. repeat split.
Qed.

(** Scenario C, a file of 5 MiB, and the largest accepted file. *)
Lemma upload_size_limit_witness :
  (let r := handleImageUpload
              (App.setRefImage (Some (lit "data:image/png;base64,AAAA"))
                 App.init)
              (Some [{| size := 5 * 1024 * 1024 |}]) in
   snd r = None
   /\ App.refImage (fst r) = Some (lit "data:image/png;base64,AAAA")
   /\ App.error (fst r) <> None)
  /\ handleImageUpload App.init (Some [{| size := 4 * 1024 * 1024 |}])
     = (App.init, Some {| size := 4 * 1024 * 1024 |}).
Proof.
  cbv zeta. split.
  - destruct (upload_size_limit
                (App.setRefImage (Some (lit "data:image/png;base64,AAAA"))
                   App.init)
                {| size := 5 * 1024 * 1024 |} [])
      as [Hbig _].
    destruct (Hbig eq_refl) as (Hnone & _ & Herr & Href & _).
    split; [exact Hnone|]. split; [exact Href|].
    rewrite Herr. discriminate.
  - destruct (upload_size_limit App.init {| size := 4 * 1024 * 1024 |} [])
      as [_ Hsmall].
    apply Hsmall. discriminate.
Defined.

Lemma scanParts_no_image (ps : list Part) (st : App.t) :
  List.existsb
    (fun part => match inlineData part with Some _ => true | None => false end)
    ps = false ->
  scanParts ps st = (st, inr false).
Proof.
  induction ps as [|part rest IH]; cbn; intro Hno; [reflexivity|].
  destruct (inlineData part); [discriminate|]. apply IH. exact Hno.
Qed.

Lemma generateCover_try_fails (closure st : App.t) (outcome : Outcome) :
  generationFails outcome = true ->
  exists err,
    generateCover_try closure outcome st = (st, inl err)
    /\ (throwsNullish outcome = false ->
        forall s, errorMessage err s = (s, inr (failureMessage outcome)))
    /\ (forall typeError, outcome = Threw (Nullish typeError) ->
        err = Nullish typeError).
Proof.
  destruct outcome as [[[[|c m]|] | typeError] | response]; cbn;
    intro Hfail.
  - eexists. split; [reflexivity|]. split; [reflexivity | discriminate].
  - eexists. split; [reflexivity|]. split; [reflexivity | discriminate].
  - eexists. split; [reflexivity|]. split; [reflexivity | discriminate].
  - eexists. split; [reflexivity|]. split; [discriminate|].
    intros te Hte. injection Hte as <-. reflexivity.
  - apply negb_true_iff in Hfail. unfold hasImagePart in Hfail.
    eexists. unfold bind. rewrite (scanParts_no_image _ _ Hfail). cbn.
    split; [reflexivity|]. split; [reflexivity | discriminate].
Qed.

(** C9.  When the generation fails with an error (the collaborator throws
    a value other than [null] and [undefined], or its response has no part
    with image data), the rest of [generateCover] sets exactly one error
    message and the page shows it: the message is never empty, it is the
    thrown value's own message when that is a non-empty string,
    "Failed to generate image." when the value has none or an empty one,
    and the fixed text about an answer of text for a response without
    image.  [isGenerating] is cleared, no exception escapes, and the
    generated image, the overlay, its switch and the reference image of the
    current state are left as they are, whatever happened to the state
    while the call was pending.  So does the whole handler when nothing
    happens in between. *)
Theorem generation_failure_keeps_state (closure st : App.t) (outcome : Outcome)
    (Hfail : generationFails outcome = true)
    (Herror : throwsNullish outcome = false) :
  let r := generateCover_settle closure outcome st in
  snd r = inr tt
  /\ fst r = App.setIsGenerating false
               (App.setError (Some (failureMessage outcome)) st)
  /\ App.error (fst r) = Some (failureMessage outcome)
  /\ App.isGenerating (fst r) = false
  /\ App.generatedImage (fst r) = App.generatedImage st
  /\ App.overlay (fst r) = App.overlay st
  /\ App.showOverlay (fst r) = App.showOverlay st
  /\ App.refImage (fst r) = App.refImage st
  /\ (forall (collaborator : Request -> Outcome) (req : Request) (st1 : App.t),
         generateCover_begin closure = (st1, Some req) ->
         collaborator req = outcome ->
         let r' := generateCover collaborator closure in
         snd r' = inr tt
         /\ App.error (fst r') = Some (failureMessage outcome)
         /\ App.isGenerating (fst r') = false
         /\ App.generatedImage (fst r') = App.generatedImage closure
         /\ App.overlay (fst r') = App.overlay closure
         /\ App.showOverlay (fst r') = App.showOverlay closure
         /\ App.refImage (fst r') = App.refImage closure)
  /\ failureMessage outcome <> []
  /\ errorBanner (fst r) = Some (failureMessage outcome)
  /\ (forall m, outcome = Threw (ErrorObject (Some m)) -> m <> [] ->
      App.error (fst r) = Some m)
  /\ (outcome = Threw (ErrorObject None)
      \/ outcome = Threw (ErrorObject (Some [])) ->
      App.error (fst r) = Some (lit "Failed to generate image."))
  /\ (forall response, outcome = Responded response ->
      App.error (fst r)
      = Some (lit "The model generated text instead of an image. Please try refining your prompt.")).
Proof.
  assert (Hsettle : forall s,
             generateCover_settle closure outcome s
             = (App.setIsGenerating false
                  (App.setError (Some (failureMessage outcome)) s), inr tt)).
  { intro s. unfold generateCover_settle, try_catch_finally.
    destruct (generateCover_try_fails closure s outcome Hfail)
      as (err & Htry & Hmsg & _).
    rewrite Htry. unfold bind. rewrite (Hmsg Herror). reflexivity. }
  assert (Hnonempty : failureMessage outcome <> []).
  { destruct outcome as [[[[|c m]|] | typeError] | response];
      cbn in Herror |- *; discriminate. }
  cbv zeta. rewrite Hsettle. cbn [fst snd].
  repeat (split; [reflexivity|]).
  split; [|split; [exact Hnonempty|]; split; [|split; [|split]]].
  - intros collaborator req st1 Hbegin Hcall.
    unfold generateCover. rewrite Hbegin, Hcall, Hsettle. cbn [fst snd].
    unfold generateCover_begin in Hbegin.
    destruct (negb (truthy (trim (App.prompt closure)))
              && negb (truthy_opt (App.refImage closure)));
      [discriminate|].
    injection Hbegin as <- _. cbn. repeat split.
  - unfold errorBanner. cbn.
    destruct (failureMessage outcome); [now elim Hnonempty | reflexivity].
  - intros m -> Hm. cbn. destruct m; [now elim Hm | reflexivity].
  - intros [-> | ->]; reflexivity.
  - intros response ->. reflexivity.
Qed.

(** A state with a generated image and a titled overlay; the collaborator
    answers with text only. *)
Lemma generation_failure_keeps_state_witness :
  let st := App.setGeneratedImage (Some (lit "data:image/png;base64,AAAA"))
              (App.setOverlay (OverlayState.with_text (lit "Title")) App.init) in
  let textOnly :=
    Responded
      {| candidates :=
           Some [{| content :=
                      Some {| parts :=
                                Some [{| inlineData := None;
                                         part_text := Some (lit "Sorry") |}] |} |}] |} in
  let r := generateCover_settle st textOnly st in
  snd r = inr tt
  /\ App.error (fst r)
     = Some (lit "The model generated text instead of an image. Please try refining your prompt.")
  /\ App.generatedImage (fst r) = Some (lit "data:image/png;base64,AAAA")
  /\ App.overlay (fst r) = App.overlay st.
Proof.
  cbv zeta.
  destruct (generation_failure_keeps_state
              (App.setGeneratedImage (Some (lit "data:image/png;base64,AAAA"))
                 (App.setOverlay (OverlayState.with_text (lit "Title"))
                    App.init))
              (App.setGeneratedImage (Some (lit "data:image/png;base64,AAAA"))
                 (App.setOverlay (OverlayState.with_text (lit "Title"))
                    App.init))
              (Responded
                 {| candidates :=
                      Some [{| content :=
                                 Some {| parts :=
                                           Some [{| inlineData := None;
                                                    part_text := Some (lit "Sorry") |}] |} |}] |})
              eq_refl eq_refl)
    as (Hret & _ & Herr & _ & Himg & Hov & _).
  split; [exact Hret|]. split; [exact Herr|]. split; [exact Himg|]. exact Hov.
Defined.

(** ** The component as a state machine *)

Lemma scanParts_overlay (ps : list Part) (st : App.t) :
  App.overlay (fst (scanParts ps st)) = App.overlay st
  /\ App.showOverlay (fst (scanParts ps st)) = App.showOverlay st.
Proof.
  induction ps as [|part rest IH]; cbn; [split; reflexivity|].
  destruct (inlineData part); [split; reflexivity | exact IH].
Qed.

(** Settling a generation, failed or not, leaves the overlay alone. *)
Lemma generateCover_settle_overlay (closure st : App.t) (outcome : Outcome) :
  App.overlay (fst (generateCover_settle closure outcome st)) = App.overlay st.
Proof.
  unfold generateCover_settle, try_catch_finally, generateCover_try.
  destruct outcome as [[[m|] | typeError] | response];
    [reflexivity | reflexivity | reflexivity |].
  unfold bind.
  pose proof (scanParts_overlay (responseParts response) st) as [Hov _].
  destruct (scanParts (responseParts response) st) as [st1 [err | found]];
    cbn [fst] in Hov;
    [destruct err as [[m|] | typeError]; cbn; exact Hov|].
  destruct found; cbn [negb]; unfold ret, throw, set; cbn; [|exact Hov].
  destruct (negb (App.showOverlay closure)
            && truthy (OverlayState.text (App.overlay closure)));
    cbn; exact Hov.
Qed.

(** Every event but a pointer move keeps the overlay position. *)
Lemma react_position (ev : Event) (st : App.t) :
  (forall container e, ev <> MouseMove container e) ->
  OverlayState.x (App.overlay (react ev st)) = OverlayState.x (App.overlay st)
  /\ OverlayState.y (App.overlay (react ev st))
     = OverlayState.y (App.overlay st).
Proof.
  intro Hev. destruct ev; cbn [react];
    try (split; reflexivity);
    try (rewrite generateCover_settle_overlay; split; reflexivity).
  - unfold handleImageUpload.
    destruct (match files with
              | Some l => List.nth_error l 0
              | None => None
              end) as [file|]; [|split; reflexivity].
    destruct (size file >? 4 * 1024 * 1024)%Z; split; reflexivity.
  - unfold handleRefine.
    destruct (truthy_opt (App.generatedImage st)); split; reflexivity.
  - unfold generateCover_begin.
    destruct (negb (truthy (trim (App.prompt st)))
              && negb (truthy_opt (App.refImage st))); split; reflexivity.
  - unfold handleMouseDown.
    destruct (negb (App.showOverlay st)); split; reflexivity.
  - exfalso. exact (Hev container e eq_refl).
  - unfold handleGlobalMouseUp.
    destruct (OverlayState.isDragging (App.overlay st)); split; reflexivity.
Qed.

(** X8.  The invariant of the overlay state: from the initial position
    (50, 50) on, whatever the events, [x] and [y] stay in [0,100]. *)
Theorem position_invariant (st : App.t) :
  Reachable st -> positionInRange st.
Proof.
  induction 1 as [|st ev Hreach IH Hbox].
  - unfold positionInRange. cbn. repeat split; lra.
  - destruct ev;
      try (match goal with
           | |- positionInRange (react ?ev0 st) =>
               destruct (react_position ev0 st) as [Ex Ey];
               [intros; discriminate|];
               unfold positionInRange; rewrite Ex, Ey; exact IH
           end).
    cbn [react]. unfold handleMouseMove.
    destruct (negb (OverlayState.isDragging (App.overlay st))); [exact IH|].
    destruct container as [rect|]; [|exact IH].
    unfold positionInRange. cbn. split; apply clamp_bounds.
Qed.

(** X9.  The drag controller: a press starts a drag exactly when the
    overlay is enabled; a release, leaving the container and a release
    anywhere in the window all end it; a move outside a drag changes
    nothing. *)
Lemma drag_transitions (st : App.t) :
  OverlayState.isDragging (App.overlay (react MouseDown st))
  = (App.showOverlay st || OverlayState.isDragging (App.overlay st))
  /\ OverlayState.isDragging (App.overlay (react MouseUp st)) = false
  /\ OverlayState.isDragging (App.overlay (react MouseLeave st)) = false
  /\ OverlayState.isDragging (App.overlay (react WindowMouseUp st)) = false
  /\ (OverlayState.isDragging (App.overlay st) = false ->
      forall container e, react (MouseMove container e) st = st).
Proof.
  cbn [react]. unfold handleMouseDown, handleMouseUp, handleGlobalMouseUp,
    handleMouseMove.
  destruct (App.showOverlay st),
    (OverlayState.isDragging (App.overlay st)) eqn:Hd; cbn;
    rewrite ?Hd; repeat split; intros; try discriminate; reflexivity.
Qed.

(** ** Sanity checks of the model on concrete runs *)

(** A response with an image part replaces the generated image, switches the
    overlay on when the closure had text but no overlay, and sets no error. *)
Example generateCover_success :
  let st := App.setOverlay (OverlayState.with_text (lit "Title")) App.init in
  let image :=
    Responded
      {| candidates :=
           Some [{| content :=
                      Some {| parts :=
                                Some [{| inlineData := None;
                                         part_text := Some (lit "Here") |};
                                      {| inlineData :=
                                           Some {| mimeType := Some (lit "image/png");
                                                   data := Some (lit "QUJD") |};
                                         part_text := None |}] |} |}] |} in
  let r := generateCover_settle st image (App.setIsGenerating true st) in
  snd r = inr tt
  /\ App.generatedImage (fst r) = Some (lit "data:image/png;base64,QUJD")
  /\ App.showOverlay (fst r) = true
  /\ App.error (fst r) = None
  /\ App.isGenerating (fst r) = false.
Proof. cbv zeta. repeat split. Qed.

(** A thrown error without a message shows the default one. *)
Example generateCover_throw_default_message :
  App.error (fst (generateCover_settle App.init
                    (Threw (ErrorObject None)) App.init))
  = Some (lit "Failed to generate image.").
Proof. reflexivity. Qed.

(** Neither a prompt nor a reference image: validation fails, nothing is
    requested. *)
Example generateCover_validation :
  generateCover_begin App.init
  = (App.setError
       (Some (lit "Please enter a prompt or upload a reference image."))
       App.init, None).
Proof. reflexivity. Qed.

(** Scenario A, end to end: the exported cover of a 1600 x 900 image. *)
Example scenario_A_cover :
  let st := App.setGeneratedImage (Some (lit "data:image/png;base64,AAAA"))
              App.init in
  exists e,
    downloadImage st true true (Some {| width := 1600; height := 900 |}) 0 cover
    = Some e
    /\ canvas_width e == 900 /\ canvas_height e == 383
    /\ src_h (drawImage e) == (6128 # 9)
    /\ src_y (drawImage e) == (986 # 9)
    /\ fillText e = None.
Proof. cbv zeta. eexists. split; [reflexivity|]. repeat split. Qed.

(** [trim] strips both ends and keeps inner blanks. *)
Example trim_example : trim (lit "  a b  ") = lit "a b".
Proof. reflexivity. Qed.

(** ** Sample runs in binary64

    The same [cropGeometry], [textPosition] and [fontSizeFor], evaluated
    with the rounding of IEEE-754 doubles. *)

(** The [full] geometry re-projects a position onto itself, rounding
    included: here a third of the way across a 1600 x 900 image. *)
Example full_identity_binary64 :
  let sourceW : spec_float := ofZ 1600 in
  let sourceH : spec_float := ofZ 900 in
  let x := const 33.3 in
  let y := const 66.7 in
  textPosition x y sourceW sourceH (cropGeometry full sourceW sourceH)
  = (mul (div x (const 100)) sourceW, mul (div y (const 100)) sourceH).
Proof. vm_compute. reflexivity. Qed.

(** The icon crop of an odd-sized image keeps its centre, halves
    included. *)
Example thumb_centered_binary64 :
  let sourceW : spec_float := ofZ 1201 in
  let sourceH : spec_float := ofZ 801 in
  let g := cropGeometry thumb sourceW sourceH in
  Binary64.value (sx g) = Some 200 /\ Binary64.value (sy g) = Some 0
  /\ Binary64.value (sw g) = Some 801
  /\ SFadd Binary64.prec Binary64.emax (sx g) (div (sw g) (const 2))
     = div sourceW (const 2)
  /\ SFadd Binary64.prec Binary64.emax (sy g) (div (sh g) (const 2))
     = div sourceH (const 2).
Proof. vm_compute. repeat split. Qed.

(** The font sizes of the fixed-size kinds: 75 for the icon, and the double
    next to 57.45 for the cover. *)
Example fontSize_binary64 :
  fontSizeFor (num := spec_float) thumb (const 500) = ofZ 75
  /\ exists v,
       Binary64.value (fontSizeFor (num := spec_float) cover (const 383))
       = Some v
       /\ 57.45 - (1 # 10 ^ 12) < v /\ v < 57.45 + (1 # 10 ^ 12).
Proof.
  vm_compute. split; [reflexivity|].
  eexists. split; [reflexivity|]. split; reflexivity.
Qed.

(** What the positivity of the source size rules out: on an empty image the
    [full] re-projection divides zero by zero. *)
Example full_empty_image_binary64 :
  let zero : spec_float := ofZ 0 in
  textPosition (const 50) (const 50) zero zero (cropGeometry full zero zero)
  = (S754_nan, S754_nan).
Proof. vm_compute. reflexivity. Qed.

(** * Further properties *)

(** ** Strings *)

Lemma trimStart_nil_iff (s : jsstring) : trimStart s = [] <-> blank s = true.
Proof.
  induction s as [|c rest IH]; cbn; [tauto|].
  destruct (isWhiteSpace c); cbn; [exact IH|].
  split; discriminate.
Qed.

Lemma trimStart_head (s : jsstring) (c : N) (rest : jsstring) :
  trimStart s = c :: rest -> isWhiteSpace c = false.
Proof.
  induction s as [|c0 rest0 IH]; cbn; [discriminate|].
  destruct (isWhiteSpace c0) eqn:Hc0; [exact IH|].
  intro Heq. injection Heq as <- _. exact Hc0.
Qed.

Lemma blank_rev (s : jsstring) : blank (List.rev s) = blank s.
Proof.
  unfold blank. induction s as [|c rest IH]; [reflexivity|].
  cbn. rewrite forallb_app, IH. cbn. rewrite andb_true_r. apply andb_comm.
Qed.

(** Trimming leaves something exactly when a code unit is not white
    space. *)
Lemma truthy_trim (s : jsstring) : truthy (trim s) = negb (blank s).
Proof.
  unfold trim, trimEnd.
  destruct (trimStart s) as [|c rest] eqn:Hs.
  - apply trimStart_nil_iff in Hs. rewrite Hs. reflexivity.
  - assert (Hc : isWhiteSpace c = false) by (eapply trimStart_head; eauto).
    assert (Hnb : blank s = false).
    { destruct (blank s) eqn:Hb; [|reflexivity].
      apply trimStart_nil_iff in Hb. congruence. }
    rewrite Hnb. cbn [negb].
    destruct (trimStart (List.rev (c :: rest))) as [|c' rest'] eqn:Hr.
    + apply trimStart_nil_iff in Hr. rewrite blank_rev in Hr.
      cbn in Hr. rewrite Hc in Hr. discriminate.
    + destruct (List.rev (c' :: rest')) eqn:Hrev; [|reflexivity].
      apply (f_equal (@List.length N)) in Hrev.
      rewrite length_rev in Hrev. discriminate.
Qed.

(** ** The crop and the re-projection, for every kind *)

Lemma Qmin_pos (a b : Q) : 0 < a -> 0 < b -> 0 < Qmin a b.
Proof.
  intros Ha Hb. destruct (Q.min_spec a b) as [[_ E] | [_ E]]; rewrite E; assumption.
Qed.

(** For a source of positive size the source rectangle and the canvas have
    positive sides, in the same proportion. *)
Lemma cropGeometry_proportion (type : ExportType) (W H : Q) :
  0 < W -> 0 < H ->
  let g := cropGeometry type W H in
  0 < sw g /\ 0 < sh g /\ 0 < targetW g /\ 0 < targetH g
  /\ targetW g / sw g == targetH g / sh g.
Proof.
  intros HW HH. pose proof (Qmin_pos W H HW HH) as Hm.
  destruct type; cbn.
  - repeat split; try assumption. field. split; lra.
  - assert (0 < 383 * (W / 900)) by (qconst; lra).
    repeat split; try assumption; try lra. field. lra.
  - repeat split; try assumption; try lra.
Qed.

(** The re-projection on one axis, strictly: left of, right of and within
    the source interval. *)
Lemma reproject_strict (p s w t : Q) :
  0 < w -> 0 < t ->
  (p < s -> (p - s) * (t / w) < 0)
  /\ (s + w < p -> t < (p - s) * (t / w))
  /\ (s < p -> p < s + w -> 0 < (p - s) * (t / w) /\ (p - s) * (t / w) < t).
Proof.
  intros Hw Ht.
  assert (Hk : 0 < t / w) by (apply Qlt_shift_div_l; lra).
  assert (Ht' : t == w * (t / w)) by (field; lra).
  set (k := t / w) in *.
  assert (Hlt : forall a b, a < b -> a * k < b * k)
    by (intros a b Hab; apply (Qmult_lt_r _ _ k Hk); exact Hab).
  repeat split.
  - intro Hp. pose proof (Hlt (p - s) 0 ltac:(lra)). lra.
  - intro Hp. pose proof (Hlt w (p - s) ltac:(lra)). lra.
  - pose proof (Hlt 0 (p - s) ltac:(lra)). lra.
  - pose proof (Hlt (p - s) w ltac:(lra)). lra.
Qed.

(** X3.  In every export kind, an overlay position is not clamped to the
    crop: with [pX = x/100 * sourceW] the source pixel of the text, a pixel
    at least one source pixel left of the source rectangle is drawn left of
    the canvas ([textX < 0]), one at least one pixel right of it is drawn
    right of the canvas ([textX > targetW]), and one at least one pixel
    inside it is drawn strictly inside; and so for [pY] from top to
    bottom. *)
Theorem text_off_canvas_outside_crop (type : ExportType) (x y : Q)
    (img : Image)
    (Hw : (0 < width img)%Z) (Hh : (0 < height img)%Z) :
  let sourceW := inject_Z (width img) in
  let sourceH := inject_Z (height img) in
  let g := cropGeometry type sourceW sourceH in
  let pos := textPosition x y sourceW sourceH g in
  let pX := x / 100 * sourceW in
  let pY := y / 100 * sourceH in
  (pX <= sx g - 1 -> fst pos < 0)
  /\ (sx g + sw g + 1 <= pX -> targetW g < fst pos)
  /\ (sx g + 1 <= pX -> pX <= sx g + sw g - 1 ->
      0 < fst pos /\ fst pos < targetW g)
  /\ (pY <= sy g - 1 -> snd pos < 0)
  /\ (sy g + sh g + 1 <= pY -> targetH g < snd pos)
  /\ (sy g + 1 <= pY -> pY <= sy g + sh g - 1 ->
      0 < snd pos /\ snd pos < targetH g).
Proof.
  destruct img as [w h]. cbn [width height] in *.
  apply inject_Z_pos in Hw, Hh.
  destruct (cropGeometry_proportion type _ _ Hw Hh)
    as (Hsw & Hsh & Htw & Hth & _).
  cbv zeta.
  set (g := cropGeometry type (inject_Z w) (inject_Z h)) in *.
  cbn [textPosition fst snd const sub mul div Arith_Q].
  destruct (reproject_strict (x / 100 * inject_Z w) (sx g) (sw g)
              (targetW g) Hsw Htw) as (Hxl & Hxr & Hxi).
  destruct (reproject_strict (y / 100 * inject_Z h) (sy g) (sh g)
              (targetH g) Hsh Hth) as (Hyl & Hyr & Hyi).
  split; [intro Hp; apply Hxl; lra|].
  split; [intro Hp; apply Hxr; lra|].
  split; [intros Hp Hq; apply Hxi; lra|].
  split; [intro Hp; apply Hyl; lra|].
  split; [intro Hp; apply Hyr; lra|].
  intros Hp Hq; apply Hyi; lra.
Qed.

(** On a 1200 x 800 image the icon keeps the columns 200 to 1000: a text at
    [x = 10] (pixel 120) falls left of the canvas, one at [x = 95] (pixel
    1140) right of it. *)
Lemma text_off_canvas_outside_crop_witness :
  fst (textPosition 10 50 1200 800 (cropGeometry thumb 1200 800)) < 0
  /\ 500 < fst (textPosition 95 50 1200 800 (cropGeometry thumb 1200 800)).
Proof.
  destruct (text_off_canvas_outside_crop thumb 10 50
              {| width := 1200; height := 800 |} eq_refl eq_refl)
    as (Hleft & _).
  destruct (text_off_canvas_outside_crop thumb 95 50
              {| width := 1200; height := 800 |} eq_refl eq_refl)
    as (_ & Hright & _).
  split; [apply Hleft | apply Hright]; vm_compute; discriminate.
Defined.

(** X5.  The [cover] crop lies inside the source exactly when the source is
    at most 900:383 wide, [383 * sourceW <= 900 * sourceH].  For the 16:9
    ratio that [generateCover] asks the model for, it lies strictly inside
    and keeps between 75 and 76 percent of the height. *)
Theorem cover_crop_inside_source (img : Image)
    (Hw : (0 < width img)%Z) (Hh : (0 < height img)%Z) :
  let sourceW := inject_Z (width img) in
  let sourceH := inject_Z (height img) in
  let g := cropGeometry cover sourceW sourceH in
  (0 <= sy g /\ sy g + sh g <= sourceH <-> 383 * sourceW <= 900 * sourceH)
  /\ ((9 * width img = 16 * height img)%Z ->
      0 < sy g /\ sy g + sh g < sourceH
      /\ (3 # 4) * sourceH < sh g /\ sh g < (19 # 25) * sourceH).
Proof.
  destruct img as [w h]. cbn [width height] in *.
  pose proof (inject_Z_pos _ Hw) as HW. pose proof (inject_Z_pos _ Hh) as HH.
  cbv zeta. exact_arith. split.
  - split; [intros [H0 H1] | intro Hr; split]; qconst; lra.
  - intro Hratio.
    assert (Hq : 9 * inject_Z w == 16 * inject_Z h).
    { change 9 with (inject_Z 9). change 16 with (inject_Z 16).
      rewrite <- !inject_Z_mult. rewrite Hratio. reflexivity. }
    repeat split; qconst; lra.
Qed.

Lemma cover_crop_inside_source_witness :
  0 < sy (cropGeometry cover 1920 1080)
  /\ 810 < sh (cropGeometry cover 1920 1080)
  /\ sh (cropGeometry cover 1920 1080) < 821.
Proof.
  destruct (cover_crop_inside_source {| width := 1920; height := 1080 |}
              eq_refl eq_refl) as (_ & Hratio).
  destruct (Hratio eq_refl) as (Hsy & _ & Hlow & Hhigh).
  cbn [width height] in Hlow, Hhigh.
  split; [exact Hsy|]. split; [exact Hlow|].
  apply (Qlt_trans _ _ _ Hhigh). reflexivity.
Defined.

(** ** What is drawn of the overlay *)

(** X7.  An export draws the overlay text exactly when the overlay is
    enabled and the text has a code unit that is not white space.  What it
    draws is the text as typed, blanks included, in the chosen font and
    colour, with a shadow blurred by a third and dropped by a tenth of the
    font size; and the editor shows an overlay whenever the export draws
    one.  The converse fails: a text of one space is shown and not drawn. *)
Theorem overlay_text_drawn_iff (type : ExportType) (st : App.t) (img : Image)
    (now : Z) :
  let e := onload type (App.showOverlay st) (App.overlay st) img now in
  (fillText e <> None
   <-> App.showOverlay st = true
       /\ blank (OverlayState.text (App.overlay st)) = false)
  /\ (forall d, fillText e = Some d ->
        fillText_text d = OverlayState.text (App.overlay st)
        /\ fontFamily d = OverlayState.font (App.overlay st)
        /\ fillStyle d = OverlayState.color (App.overlay st)
        /\ shadowBlur d == fontSize d / 3
        /\ shadowOffsetX d == 0
        /\ shadowOffsetY d == fontSize d / 10
        /\ overlayShown st = true)
  /\ (let st1 := App.setShowOverlay true
                   (App.setOverlay (OverlayState.with_text [32%N]) st) in
      overlayShown st1 = true
      /\ fillText (onload type (App.showOverlay st1) (App.overlay st1) img now)
         = None).
Proof.
  cbv zeta. cbn [onload fillText]. unfold drawOverlayText, overlayShown.
  rewrite truthy_trim.
  destruct (App.showOverlay st);
    destruct (OverlayState.text (App.overlay st)) as [|c rest] eqn:Htext;
    cbn [andb negb blank List.forallb truthy].
  - split; [|split; [discriminate | split; reflexivity]].
    split; [intro Hn; now elim Hn | intros [_ Hb]; discriminate].
  - destruct (isWhiteSpace c && List.forallb isWhiteSpace rest) eqn:Hb;
      cbn [negb].
    + split; [|split; [discriminate | split; reflexivity]].
      split; [intro Hn; now elim Hn | intros [_ Hb']; discriminate].
    + split; [split; [auto | discriminate]|].
      split; [|split; reflexivity].
      intros d Hd. injection Hd as <-. cbn. repeat split; reflexivity.
  - split; [|split; [discriminate | split; reflexivity]].
    split; [intro Hn; now elim Hn | intros [Hs _]; discriminate].
  - split; [|split; [discriminate | split; reflexivity]].
    split; [intro Hn; now elim Hn | intros [Hs _]; discriminate].
Qed.

(** ** Dragging and the pointer *)

(** X11.  A pointer move carries no history: after any move, a move over a
    mounted container leaves the state that this last move alone would
    leave. *)
Theorem last_move_wins (st : App.t) (container : option DOMRect)
    (e1 e2 : MouseEvent) (rect : DOMRect) :
  handleMouseMove (handleMouseMove st container e1) (Some rect) e2
  = handleMouseMove st (Some rect) e2.
Proof.
  unfold handleMouseMove.
  destruct (OverlayState.isDragging (App.overlay st)) eqn:Hd; cbn [negb].
  - destruct container as [rect1|]; cbn; rewrite ?Hd; reflexivity.
  - rewrite Hd. reflexivity.
Qed.

(** Toggle the overlay on, press, and move far outside the box. *)
Lemma position_invariant_witness :
  positionInRange
    (react (MouseMove (Some {| left := 100; top := 50;
                               rect_width := 400; rect_height := 225 |})
              {| clientX := 2000; clientY := (-7) |})
       (react MouseDown (react OverlayToggled App.init))).
Proof.
  apply position_invariant.
  apply Reachable_react; [|split; reflexivity].
  apply Reachable_react; [|exact I].
  apply Reachable_react; [|exact I].
  apply Reachable_init.
Defined.

(** ** Generating *)

Lemma scanParts_first (ps : list Part) (st : App.t) :
  scanParts ps st
  = match List.find
            (fun part =>
               match inlineData part with Some _ => true | None => false end)
            ps with
    | Some part =>
        match inlineData part with
        | Some blob =>
            (App.setGeneratedImage
               (Some (pngPrefix ++ template (data blob))) st, inr true)
        | None => (st, inr false)
        end
    | None => (st, inr false)
    end.
Proof.
  induction ps as [|part rest IH]; [reflexivity|].
  cbn. destruct (inlineData part) as [blob|] eqn:Hpart.
  - rewrite Hpart. reflexivity.
  - exact IH.
Qed.

Lemma firstImagePart_fails (response : Response) :
  firstImagePart response = None <-> hasImagePart response = false.
Proof.
  unfold firstImagePart, hasImagePart.
  induction (responseParts response) as [|part rest IH]; cbn; [tauto|].
  destruct (inlineData part) as [blob|] eqn:Hpart; cbn; [|exact IH].
  rewrite Hpart. split; discriminate.
Qed.

(** How a generation that failed with an error settles. *)
Lemma generateCover_settle_failure (closure st : App.t) (outcome : Outcome) :
  generationFails outcome = true -> throwsNullish outcome = false ->
  generateCover_settle closure outcome st
  = (App.setIsGenerating false
       (App.setError (Some (failureMessage outcome)) st), inr tt).
Proof.
  intros Hfail Herror. unfold generateCover_settle, try_catch_finally.
  destruct (generateCover_try_fails closure st outcome Hfail)
    as (err & Htry & Hmsg & _).
  rewrite Htry. unfold bind. rewrite (Hmsg Herror). reflexivity.
Qed.

(** How a call rejected with [null] or [undefined] settles: the [catch]
    block throws before it sets a message, [finally] still runs. *)
Lemma generateCover_settle_nullish (closure st : App.t)
    (typeError : jsstring) :
  generateCover_settle closure (Threw (Nullish typeError)) st
  = (App.setIsGenerating false st, inl (ErrorObject (Some typeError))).
Proof. reflexivity. Qed.

Lemma failureMessage_nonempty (outcome : Outcome) :
  throwsNullish outcome = false -> failureMessage outcome <> [].
Proof.
  destruct outcome as [[[[|c m]|] | typeError] | response]; cbn;
    discriminate.
Qed.

(** How a generation that found an image settles. *)
Lemma generateCover_settle_success (closure st : App.t) (response : Response)
    (blob : Blob) :
  firstImagePart response = Some blob ->
  generateCover_settle closure (Responded response) st
  = (App.setIsGenerating false
       ((if negb (App.showOverlay closure)
            && truthy (OverlayState.text (App.overlay closure))
         then App.setShowOverlay true else fun s => s)
          (App.setActiveTab editor
             (App.setGeneratedImage
                (Some (pngPrefix ++ template (data blob))) st))), inr tt).
Proof.
  unfold firstImagePart. intro Hfirst.
  unfold generateCover_settle, try_catch_finally, generateCover_try, bind.
  rewrite scanParts_first.
  destruct (List.find _ (responseParts response)) as [part|];
    [|discriminate].
  rewrite Hfirst. cbn.
  destruct (negb (App.showOverlay closure)
            && truthy (OverlayState.text (App.overlay closure)));
    reflexivity.
Qed.

Lemma outcome_cases (outcome : Outcome) :
  (generationFails outcome = true /\ throwsNullish outcome = false)
  \/ (exists typeError, outcome = Threw (Nullish typeError))
  \/ exists response blob,
       outcome = Responded response /\ firstImagePart response = Some blob.
Proof.
  destruct outcome as [[message | typeError] | response].
  - left. split; reflexivity.
  - right. left. exists typeError. reflexivity.
  - destruct (firstImagePart response) as [blob|] eqn:Hfirst.
    + right. right. exists response, blob. split; [reflexivity | exact Hfirst].
    + left. cbn. apply firstImagePart_fails in Hfirst. rewrite Hfirst.
      split; reflexivity.
Qed.

(** X12.  When the response has a part with image data, the rest of
    [generateCover] stores the data of the first such part as a PNG data URL
    (the word "undefined" stands for missing data), shows the editor tab,
    clears [isGenerating], sets no error and lets nothing escape.  It
    switches the overlay on when the text was non-empty and the overlay off
    at the time of the click, and keeps the overlay, the prompt and the
    reference image. *)
Theorem generation_success_state (closure st : App.t) (response : Response)
    (blob : Blob) (Hfirst : firstImagePart response = Some blob) :
  let r := generateCover_settle closure (Responded response) st in
  snd r = inr tt
  /\ App.generatedImage (fst r)
     = Some (lit "data:image/png;base64," ++ template (data blob))
  /\ App.activeTab (fst r) = editor
  /\ App.isGenerating (fst r) = false
  /\ App.error (fst r) = App.error st
  /\ App.showOverlay (fst r)
     = (App.showOverlay st
        || negb (App.showOverlay closure)
           && truthy (OverlayState.text (App.overlay closure)))
  /\ App.overlay (fst r) = App.overlay st
  /\ App.prompt (fst r) = App.prompt st
  /\ App.refImage (fst r) = App.refImage st.
Proof.
  cbv zeta. rewrite (generateCover_settle_success _ _ _ _ Hfirst).
  destruct (negb (App.showOverlay closure)
            && truthy (OverlayState.text (App.overlay closure)));
    cbn; rewrite ?orb_true_r, ?orb_false_r; repeat split; reflexivity.
Qed.

(** The image comes second, after a part of text, and carries no data. *)
Lemma generation_success_state_witness :
  let response :=
    {| candidates :=
         Some [{| content :=
                    Some {| parts :=
                              Some [{| inlineData := None;
                                       part_text := Some (lit "Here") |};
                                    {| inlineData :=
                                         Some {| mimeType := None;
                                                 data := None |};
                                       part_text := None |}] |} |}] |} in
  App.generatedImage
    (fst (generateCover_settle App.init (Responded response) App.init))
  = Some (lit "data:image/png;base64,undefined").
Proof.
  cbv zeta.
  refine (proj1 (proj2 (generation_success_state App.init App.init
                          {| candidates :=
                               Some [{| content :=
                                          Some {| parts :=
                                                    Some [{| inlineData := None;
                                                             part_text := Some (lit "Here") |};
                                                          {| inlineData :=
                                                               Some {| mimeType := None;
                                                                       data := None |};
                                                             part_text := None |}] |} |}] |}
                          {| mimeType := None; data := None |} eq_refl))).
Defined.

(** X13.  However the awaited call ends, the rest of [generateCover]
    clears [isGenerating], never touches the prompt, the reference image or
    the overlay, never switches the overlay off, and leaves as generated
    image either the one there was or a PNG data URL.  It returns normally
    unless the call was rejected with [null] or [undefined]: then the
    [TypeError] of reading [err.message] escapes and nothing but
    [isGenerating] is set, no message either.  A failure with an error
    sets its non-empty message and keeps image and tab; a success keeps the
    error and shows the editor. *)
Theorem generation_always_settles (closure st : App.t) (outcome : Outcome) :
  let r := generateCover_settle closure outcome st in
  App.isGenerating (fst r) = false
  /\ App.prompt (fst r) = App.prompt st
  /\ App.refImage (fst r) = App.refImage st
  /\ App.overlay (fst r) = App.overlay st
  /\ (App.showOverlay st = true -> App.showOverlay (fst r) = true)
  /\ (App.generatedImage (fst r) = App.generatedImage st
      \/ exists payload,
           App.generatedImage (fst r) = Some (pngPrefix ++ payload))
  /\ (snd r = inr tt <-> throwsNullish outcome = false)
  /\ (forall typeError, outcome = Threw (Nullish typeError) ->
      snd r = inl (ErrorObject (Some typeError))
      /\ fst r = App.setIsGenerating false st)
  /\ (generationFails outcome = true -> throwsNullish outcome = false ->
      App.error (fst r) = Some (failureMessage outcome)
      /\ failureMessage outcome <> []
      /\ App.generatedImage (fst r) = App.generatedImage st
      /\ App.activeTab (fst r) = App.activeTab st)
  /\ (generationFails outcome = false ->
      App.error (fst r) = App.error st
      /\ App.generatedImage (fst r) <> None
      /\ App.activeTab (fst r) = editor).
Proof.
  cbv zeta.
  destruct (outcome_cases outcome)
    as [[Hfail Herror] | [[typeError ->] | (response & blob & -> & Hfirst)]].
  - pose proof (failureMessage_nonempty _ Herror) as Hne.
    rewrite Hfail, Herror, (generateCover_settle_failure _ _ _ Hfail Herror).
    cbn [fst snd App.isGenerating App.prompt App.refImage App.overlay
         App.showOverlay App.generatedImage App.error App.activeTab
         App.setIsGenerating App.setError].
    repeat split; auto; try discriminate;
      match goal with
      | Hout : outcome = Threw (Nullish _) |- _ =>
          rewrite Hout in Herror; discriminate
      end.
  - rewrite generateCover_settle_nullish.
    cbn [fst snd throwsNullish generationFails App.isGenerating App.prompt
         App.refImage App.overlay App.showOverlay App.generatedImage
         App.error App.activeTab App.setIsGenerating].
    repeat split; auto; try discriminate.
    match goal with
    | Hte : Threw (Nullish _) = Threw (Nullish _) |- _ =>
        injection Hte as <-; reflexivity
    end.
  - assert (Hok : generationFails (Responded response) = false).
    { cbn. destruct (hasImagePart response) eqn:Hhas; [reflexivity|].
      apply firstImagePart_fails in Hhas. congruence. }
    rewrite Hok, (generateCover_settle_success _ _ _ _ Hfirst).
    destruct (negb (App.showOverlay closure)
              && truthy (OverlayState.text (App.overlay closure)));
      cbn [fst snd throwsNullish App.isGenerating App.prompt App.refImage
           App.overlay App.showOverlay App.generatedImage App.error
           App.activeTab App.setIsGenerating App.setShowOverlay
           App.setActiveTab App.setGeneratedImage];
      repeat split; eauto; discriminate.
Qed.

(** X14.  [generateCover] asks the collaborator for nothing exactly when
    the prompt is blank (empty or white space only) and there is no
    reference image (none, or the empty string): then, whatever the
    collaborator would answer, only the validation message is set and
    [isGenerating] stays as it is.  Otherwise the request goes out with
    [isGenerating] set and the error cleared. *)
Theorem generate_validation (st : App.t) :
  (snd (generateCover_begin st) = None
   <-> blank (App.prompt st) = true /\ truthy_opt (App.refImage st) = false)
  /\ (snd (generateCover_begin st) = None ->
      forall collaborator : Request -> Outcome,
        generateCover collaborator st
        = (App.setError
             (Some (lit "Please enter a prompt or upload a reference image."))
             st, inr tt))
  /\ (snd (generateCover_begin st) <> None ->
      fst (generateCover_begin st)
      = App.setError None (App.setIsGenerating true st)).
Proof.
  unfold generateCover, generateCover_begin. rewrite truthy_trim, negb_involutive.
  destruct (blank (App.prompt st)), (truthy_opt (App.refImage st));
    cbn; repeat split; intros; try discriminate; try reflexivity;
    try tauto; try (exfalso; intuition discriminate).
Qed.

(** X15.  After a whole [generateCover], "no exception and the error
    clear" holds exactly when a request went out and its answer carried an
    image; then a generated image is there, the editor tab shows and
    [isGenerating] is off.  An exception is left exactly when the request
    went out and was rejected with [null] or [undefined]; then too the
    error is clear, though no image came, and the generated image is the
    one there was. *)
Theorem generate_error_iff_failed (collaborator : Request -> Outcome)
    (st : App.t) :
  let r := generateCover collaborator st in
  (snd r = inr tt /\ App.error (fst r) = None
   <-> exists st1 req,
         generateCover_begin st = (st1, Some req)
         /\ generationFails (collaborator req) = false)
  /\ (snd r <> inr tt
      <-> exists st1 req,
            generateCover_begin st = (st1, Some req)
            /\ throwsNullish (collaborator req) = true)
  /\ (snd r <> inr tt ->
      App.error (fst r) = None
      /\ App.isGenerating (fst r) = false
      /\ App.generatedImage (fst r) = App.generatedImage st)
  /\ (snd r = inr tt -> App.error (fst r) = None ->
      App.generatedImage (fst r) <> None
      /\ App.activeTab (fst r) = editor
      /\ App.isGenerating (fst r) = false).
Proof.
  cbv zeta. unfold generateCover.
  destruct (generateCover_begin st) as [st1 [req|]] eqn:Hbegin.
  - assert (Hst1 : st1 = App.setError None (App.setIsGenerating true st)).
    { unfold generateCover_begin in Hbegin.
      destruct (negb (truthy (trim (App.prompt st)))
                && negb (truthy_opt (App.refImage st)));
        [discriminate|].
      injection Hbegin as <- _. reflexivity. }
    destruct (outcome_cases (collaborator req))
      as [[Hfail Herror]
         | [[typeError Hout] | (response & blob & Hout & Hfirst)]].
    + pose proof (failureMessage_nonempty _ Herror) as Hne.
      rewrite (generateCover_settle_failure _ _ _ Hfail Herror). cbn.
      split; [split; [intros [_ Herr]; discriminate|]|].
      { intros (st1' & req' & Heq & Hok). injection Heq as _ <-. congruence. }
      split; [split; [intro Hn; now elim Hn|]|].
      { intros (st1' & req' & Heq & Hnull). injection Heq as _ <-.
        congruence. }
      split; [intro Hn; now elim Hn | discriminate].
    + rewrite Hout, generateCover_settle_nullish, Hst1. cbn.
      split; [split; [intros [Hn _]; discriminate|]|].
      { intros (st1' & req' & Heq & Hok). injection Heq as _ <-.
        rewrite Hout in Hok. discriminate. }
      split; [split; [intros _|discriminate]|].
      { exists (App.setError None (App.setIsGenerating true st)), req.
        rewrite Hout. split; reflexivity. }
      split; [intros _; repeat split | discriminate].
    + assert (Hok : generationFails (collaborator req) = false).
      { rewrite Hout. cbn.
        destruct (hasImagePart response) eqn:Hhas; [reflexivity|].
        apply firstImagePart_fails in Hhas. congruence. }
      assert (Hnot : throwsNullish (collaborator req) = false)
        by (rewrite Hout; reflexivity).
      rewrite Hout, (generateCover_settle_success _ _ _ _ Hfirst), Hst1.
      destruct (negb (App.showOverlay st)
                && truthy (OverlayState.text (App.overlay st)));
        cbn;
        (split; [split; [intros _; eexists; exists req;
                         split; [reflexivity | exact Hok]
                        | intros _; split; reflexivity]|]);
        (split; [split; [intro Hn; now elim Hn|]|]);
        try (intros (st1' & req' & Heq & Hnull); injection Heq as _ <-;
             congruence);
        (split; [intro Hn; now elim Hn|]);
        intros _ _; repeat split; discriminate.
  - cbn.
    assert (Herr : App.error st1 <> None).
    { unfold generateCover_begin in Hbegin.
      destruct (negb (truthy (trim (App.prompt st)))
                && negb (truthy_opt (App.refImage st)));
        [|discriminate].
      injection Hbegin as <-. discriminate. }
    split; [split; [intros [_ Hn]; contradiction|]|].
    { intros (st1' & req' & Heq & _). discriminate. }
    split; [split; [intro Hn; now elim Hn|]|].
    { intros (st1' & req' & Heq & _). discriminate. }
    split; [intro Hn; now elim Hn | intros _ Hn; contradiction].
Qed.

(** ** The generated image *)

Lemma react_generatedImage (ev : Event) (st : App.t) :
  (forall closure outcome, ev <> GenerateSettled closure outcome) ->
  App.generatedImage (react ev st) = App.generatedImage st.
Proof.
  intro Hev. destruct ev; cbn [react]; try reflexivity.
  - unfold handleImageUpload.
    destruct (match files with
              | Some l => List.nth_error l 0
              | None => None
              end) as [file|]; [|reflexivity].
    destruct (size file >? 4 * 1024 * 1024)%Z; reflexivity.
  - unfold handleRefine.
    destruct (truthy_opt (App.generatedImage st)); reflexivity.
  - unfold generateCover_begin.
    destruct (negb (truthy (trim (App.prompt st)))
              && negb (truthy_opt (App.refImage st))); reflexivity.
  - exfalso. exact (Hev closure outcome eq_refl).
  - unfold handleMouseDown.
    destruct (negb (App.showOverlay st)); reflexivity.
  - unfold handleMouseMove.
    destruct (negb (OverlayState.isDragging (App.overlay st)));
      [reflexivity|].
    destruct container; reflexivity.
  - unfold handleGlobalMouseUp.
    destruct (OverlayState.isDragging (App.overlay st)); reflexivity.
Qed.

Lemma Reachable_generatedImage (st : App.t) :
  Reachable st -> generatedImageIsPng st.
Proof.
  induction 1 as [|st ev Hreach IH Hbox]; [exact I|].
  destruct ev;
    try (unfold generatedImageIsPng;
         rewrite react_generatedImage by (intros; discriminate);
         exact IH).
  cbn [react]. unfold generatedImageIsPng.
  destruct (outcome_cases outcome)
    as [[Hfail Herror] | [[typeError ->] | (response & blob & -> & Hfirst)]].
  - rewrite (generateCover_settle_failure _ _ _ Hfail Herror). exact IH.
  - rewrite generateCover_settle_nullish. exact IH.
  - rewrite (generateCover_settle_success _ _ _ _ Hfirst).
    destruct (negb (App.showOverlay closure)
              && truthy (OverlayState.text (App.overlay closure)));
      cbn; eexists; reflexivity.
Qed.

Lemma png_truthy (payload : jsstring) : truthy (pngPrefix ++ payload) = true.
Proof. reflexivity. Qed.

(** X16.  In every state the component reaches, the generated image is
    either absent or a data URL that starts with [data:image/png;base64,];
    so it is never the empty string, and the guards [if (generatedImage)] of
    [handleRefine] and [downloadImage] pass exactly when there is one. *)
Theorem generated_image_is_png (st : App.t) :
  Reachable st ->
  generatedImageIsPng st
  /\ (truthy_opt (App.generatedImage st) = true
      <-> App.generatedImage st <> None).
Proof.
  intro Hreach.
  pose proof (Reachable_generatedImage st Hreach) as Hpng.
  split; [exact Hpng|].
  unfold generatedImageIsPng in Hpng.
  destruct (App.generatedImage st) as [url|]; cbn.
  - destruct Hpng as [payload ->]. cbn. split; [discriminate | reflexivity].
  - split; [discriminate | intro Hn; now elim Hn].
Qed.

(** The state after a generation whose answer carries an image. *)
Lemma generated_image_is_png_witness :
  truthy_opt
    (App.generatedImage
       (react (GenerateSettled App.init
                 (Responded
                    {| candidates :=
                         Some [{| content :=
                                    Some {| parts :=
                                              Some [{| inlineData :=
                                                         Some {| mimeType := None;
                                                                 data := Some (lit "QUJD") |};
                                                       part_text := None |}] |} |}] |}))
          (react GenerateClicked
             (react (PromptChange (lit "a red kite")) App.init))))
  = true.
Proof.
  apply generated_image_is_png.
  - apply Reachable_react; [|exact I].
    apply Reachable_react; [|exact I].
    apply Reachable_react; [|exact I].
    apply Reachable_init.
  - discriminate.
Defined.

(** ** The reference image in the request *)

Lemma lacks_app (c : N) (a b : jsstring) :
  lacks c (a ++ b) = lacks c a && lacks c b.
Proof. apply forallb_app. Qed.

Lemma split_nonempty (sep : N) (s : jsstring) : split sep s <> [].
Proof.
  destruct s as [|c rest]; cbn; [discriminate|].
  destruct (c =? sep)%N; [discriminate|].
  destruct (split sep rest); discriminate.
Qed.

(** Without a separator there is one piece, the string. *)
Lemma split_lacks (sep : N) (s : jsstring) :
  lacks sep s = true -> split sep s = [s].
Proof.
  induction s as [|c rest IH]; cbn; [reflexivity|].
  intro Hl. apply andb_true_iff in Hl as [Hc Hrest].
  apply negb_true_iff in Hc. rewrite Hc, (IH Hrest). reflexivity.
Qed.

(** The first piece ends at the first separator. *)
Lemma split_app (sep : N) (a b : jsstring) :
  lacks sep a = true -> split sep (a ++ sep :: b) = a :: split sep b.
Proof.
  induction a as [|c rest IH]; cbn.
  - intros _. rewrite N.eqb_refl. reflexivity.
  - intro Hl. apply andb_true_iff in Hl as [Hc Hrest].
    apply negb_true_iff in Hc. rewrite Hc, (IH Hrest). reflexivity.
Qed.

Lemma split_hd_lacks (c sep : N) (s : jsstring) :
  lacks c s = true -> lacks c (List.hd [] (split sep s)) = true.
Proof.
  induction s as [|u rest IH]; cbn; [reflexivity|].
  intro Hl. apply andb_true_iff in Hl as [Hu Hrest].
  destruct (u =? sep)%N; [reflexivity|].
  specialize (IH Hrest).
  destruct (split sep rest) as [|piece pieces]; cbn in *.
  - rewrite Hu. reflexivity.
  - rewrite Hu, IH. reflexivity.
Qed.

Lemma refMimeType_data_url (mime rest : jsstring) :
  lacks 58 mime = true -> lacks 59 mime = true ->
  refMimeType (lit "data:" ++ mime ++ 59%N :: rest) = Some mime.
Proof.
  intros Hcolon Hsemi. unfold refMimeType.
  replace (lit "data:" ++ mime ++ 59%N :: rest)
    with ((lit "data:" ++ mime) ++ 59%N :: rest)
    by (rewrite <- app_assoc; reflexivity).
  rewrite split_app by (rewrite lacks_app, Hsemi; reflexivity).
  cbn [List.hd].
  change (lit "data:" ++ mime) with (lit "data" ++ 58%N :: mime).
  rewrite split_app by reflexivity.
  rewrite (split_lacks _ _ Hcolon). reflexivity.
Qed.

Lemma base64Data_after_comma (head payload : jsstring) :
  lacks 44 head = true -> lacks 44 payload = true ->
  base64Data (head ++ 44%N :: payload) = Some payload.
Proof.
  intros Hhead Hpayload. unfold base64Data.
  rewrite (split_app _ _ _ Hhead), (split_lacks _ _ Hpayload). reflexivity.
Qed.

(** X17.  A data URL as [FileReader] and [generateCover] build it,
    [data:<mime>;<parameters>,<payload>], gives the request its MIME type
    and its payload back: [mimeType] is the text between the colon and the
    first semicolon, [data] the text after the comma, provided the MIME
    type has no colon, semicolon or comma and the parameters and the
    payload have no comma. *)
Theorem data_url_round_trip (mime params payload : jsstring)
    (Hcolon : lacks 58 mime = true) (Hsemi : lacks 59 mime = true)
    (Hcomma : lacks 44 mime = true)
    (Hparams : lacks 44 params = true) (Hpayload : lacks 44 payload = true) :
  refImagePart (lit "data:" ++ mime ++ [59%N] ++ params ++ [44%N] ++ payload)
  = {| inlineData := Some {| mimeType := Some mime; data := Some payload |};
       part_text := None |}.
Proof.
  unfold refImagePart. f_equal. f_equal. f_equal.
  - apply refMimeType_data_url; assumption.
  - replace (lit "data:" ++ mime ++ [59%N] ++ params ++ [44%N] ++ payload)
      with ((lit "data:" ++ mime ++ [59%N] ++ params) ++ 44%N :: payload)
      by (rewrite <- !app_assoc; reflexivity).
    apply base64Data_after_comma; [|exact Hpayload].
    rewrite !lacks_app, Hcomma, Hparams. reflexivity.
Qed.

Lemma data_url_round_trip_witness :
  refImagePart (lit "data:image/jpeg;base64,/9j/4AAQSkZJRg==")
  = {| inlineData := Some {| mimeType := Some (lit "image/jpeg");
                             data := Some (lit "/9j/4AAQSkZJRg==") |};
       part_text := None |}.
Proof.
  exact (data_url_round_trip (lit "image/jpeg") (lit "base64")
           (lit "/9j/4AAQSkZJRg==") eq_refl eq_refl eq_refl eq_refl eq_refl).
Defined.

(** X18.  What the request gets from a reference string that is no such
    data URL: no [data] when the string has no comma, no [mimeType] when it
    has no colon, and of a payload with a comma only the text before that
    comma. *)
Theorem data_url_edges (head first second : jsstring) :
  (lacks 44 head = true -> base64Data head = None)
  /\ (lacks 58 head = true -> refMimeType head = None)
  /\ (lacks 44 head = true -> lacks 44 first = true ->
      base64Data (head ++ [44%N] ++ first ++ [44%N] ++ second) = Some first).
Proof.
  unfold base64Data, refMimeType. repeat split.
  - intro Hl. rewrite (split_lacks _ _ Hl). reflexivity.
  - intro Hl. rewrite (split_lacks _ _ (split_hd_lacks 58 59 head Hl)).
    reflexivity.
  - intros Hh Hf. cbn [app]. rewrite (split_app _ _ _ Hh).
    rewrite (split_app _ _ _ Hf). reflexivity.
Qed.

Lemma data_url_edges_witness :
  base64Data (lit "picture") = None
  /\ refMimeType (lit "picture") = None
  /\ base64Data (lit "data:text/plain,a,b") = Some (lit "a").
Proof.
  destruct (data_url_edges (lit "picture") [] []) as (Hdata & Hmime & _).
  destruct (data_url_edges (lit "data:text/plain") (lit "a") (lit "b"))
    as (_ & _ & Hcut).
  split; [exact (Hdata eq_refl)|]. split; [exact (Hmime eq_refl)|].
  exact (Hcut eq_refl eq_refl).
Defined.

(** ** Refining *)

(** X19.  Refining right after a successful generation makes the next
    [generateCover] send the image just received: whatever the prompt, the
    request goes out, and its image part carries the MIME type
    [image/png] and the very data the response held (provided the data has
    no comma, as base64 has none). *)
Theorem refine_sends_generated_image (closure st : App.t)
    (response : Response) (blob : Blob)
    (Hfirst : firstImagePart response = Some blob)
    (Hdata : lacks 44 (template (data blob)) = true) :
  let st1 := fst (generateCover_settle closure (Responded response) st) in
  let st2 := handleRefine st1 in
  App.refImage st2 = App.generatedImage st1
  /\ App.error st2 = None
  /\ exists req,
       snd (generateCover_begin st2) = Some req
       /\ req_prompt req = App.prompt st
       /\ referenceParts req
          = [{| inlineData :=
                  Some {| mimeType := Some (lit "image/png");
                          data := Some (template (data blob)) |};
                part_text := None |}].
Proof.
  cbv zeta. rewrite (generateCover_settle_success _ _ _ _ Hfirst).
  assert (Hmime : refMimeType (pngPrefix ++ template (data blob))
                  = Some (lit "image/png"))
    by exact (refMimeType_data_url (lit "image/png")
                (lit "base64" ++ 44%N :: template (data blob))
                eq_refl eq_refl).
  assert (Hpayload : base64Data (pngPrefix ++ template (data blob))
                     = Some (template (data blob)))
    by exact (base64Data_after_comma (lit "data:image/png;base64")
                (template (data blob)) eq_refl Hdata).
  unfold handleRefine, generateCover_begin, referenceParts, refImagePart.
  destruct (negb (App.showOverlay closure)
            && truthy (OverlayState.text (App.overlay closure)));
    cbn [fst snd App.generatedImage App.refImage App.error App.prompt
         App.setIsGenerating App.setShowOverlay App.setActiveTab
         App.setGeneratedImage App.setRefImage App.setError
         truthy_opt req_refImage req_prompt];
    rewrite png_truthy;
    cbn [App.refImage App.error App.prompt App.setRefImage App.setError
         truthy_opt];
    rewrite png_truthy, andb_false_r;
    (split; [reflexivity|]); (split; [reflexivity|]);
    eexists; (split; [reflexivity|]); (split; [reflexivity|]);
    cbn [req_refImage]; rewrite Hmime, Hpayload; reflexivity.
Qed.

(** The response carries the base64 text "QUJD". *)
Lemma refine_sends_generated_image_witness :
  let response :=
    {| candidates :=
         Some [{| content :=
                    Some {| parts :=
                              Some [{| inlineData :=
                                         Some {| mimeType := Some (lit "image/png");
                                                 data := Some (lit "QUJD") |};
                                       part_text := None |}] |} |}] |} in
  let st2 := handleRefine
               (fst (generateCover_settle App.init (Responded response)
                       App.init)) in
  App.refImage st2 = Some (lit "data:image/png;base64,QUJD")
  /\ exists req,
       snd (generateCover_begin st2) = Some req
       /\ referenceParts req
          = [{| inlineData := Some {| mimeType := Some (lit "image/png");
                                      data := Some (lit "QUJD") |};
                part_text := None |}].
Proof.
  cbv zeta.
  destruct (refine_sends_generated_image App.init App.init
              {| candidates :=
                   Some [{| content :=
                              Some {| parts :=
                                        Some [{| inlineData :=
                                                   Some {| mimeType := Some (lit "image/png");
                                                           data := Some (lit "QUJD") |};
                                                 part_text := None |}] |} |}] |}
              {| mimeType := Some (lit "image/png");
                 data := Some (lit "QUJD") |}
              eq_refl eq_refl)
    as (Href & _ & req & Hreq & _ & Hparts).
  split; [exact Href|]. exists req. split; [exact Hreq | exact Hparts].
Defined.

(** X20.  [handleRefine] is idempotent, does nothing without a generated
    image, and changes at most the reference image and the error.  In a
    state the component reaches with a generated image, it makes that image
    the reference and clears the error, after which [generateCover] sends
    its request even with an empty prompt. *)
Theorem refine_properties (st : App.t) :
  handleRefine (handleRefine st) = handleRefine st
  /\ (truthy_opt (App.generatedImage st) = false -> handleRefine st = st)
  /\ (App.generatedImage (handleRefine st) = App.generatedImage st
      /\ App.overlay (handleRefine st) = App.overlay st
      /\ App.showOverlay (handleRefine st) = App.showOverlay st
      /\ App.prompt (handleRefine st) = App.prompt st
      /\ App.isGenerating (handleRefine st) = App.isGenerating st
      /\ App.activeTab (handleRefine st) = App.activeTab st)
  /\ (Reachable st -> App.generatedImage st <> None ->
      App.refImage (handleRefine st) = App.generatedImage st
      /\ App.error (handleRefine st) = None
      /\ snd (generateCover_begin (handleRefine st)) <> None).
Proof.
  split; [|split; [|split]].
  - unfold handleRefine.
    destruct (truthy_opt (App.generatedImage st)) eqn:Hgen; cbn;
      rewrite Hgen; reflexivity.
  - unfold handleRefine. intros ->. reflexivity.
  - unfold handleRefine.
    destruct (truthy_opt (App.generatedImage st)); repeat split.
  - intros Hreach Hsome.
    pose proof (Reachable_generatedImage st Hreach) as Hpng.
    unfold generatedImageIsPng in Hpng. unfold handleRefine.
    destruct (App.generatedImage st) as [url|] eqn:Hgen;
      [|now elim Hsome].
    destruct Hpng as [payload ->]. cbn [truthy_opt]. rewrite png_truthy.
    split; [reflexivity|]. split; [reflexivity|].
    unfold generateCover_begin.
    cbn [App.refImage App.setError App.setRefImage truthy_opt].
    rewrite png_truthy, andb_false_r. discriminate.
Qed.

(** ** Uploading *)

(** X21.  [handleImageUpload] looks at the first chosen file only.  With no
    file (no list, or an empty one) it does nothing and starts no read; in
    every case it changes nothing but the error, and it hands the reader a
    file only when that file is the first one, of at most 4 MiB, with the
    state untouched. *)
Theorem upload_edges (st : App.t) (files : option (list File)) :
  let r := handleImageUpload st files in
  (files = None \/ files = Some [] -> r = (st, None))
  /\ (App.refImage (fst r) = App.refImage st
      /\ App.generatedImage (fst r) = App.generatedImage st
      /\ App.overlay (fst r) = App.overlay st
      /\ App.showOverlay (fst r) = App.showOverlay st
      /\ App.prompt (fst r) = App.prompt st
      /\ App.isGenerating (fst r) = App.isGenerating st
      /\ App.activeTab (fst r) = App.activeTab st)
  /\ (forall file, snd r = Some file ->
        fst r = st
        /\ (size file <= 4 * 1024 * 1024)%Z
        /\ exists others, files = Some (file :: others))
  /\ (forall file others others',
        files = Some (file :: others) ->
        handleImageUpload st (Some (file :: others')) = r).
Proof.
  cbv zeta. unfold handleImageUpload.
  destruct files as [[|file0 others0]|]; cbn [List.nth_error].
  - split; [reflexivity|]. split; [repeat split|].
    split; [discriminate|]. intros file others others' Heq. discriminate.
  - assert (Hfirst : forall file others (others' : list File),
               Some (file0 :: others0) = Some (file :: others) ->
               (if (size file >? 4 * 1024 * 1024)%Z
                then (App.setError
                        (Some (lit "Image size too large. Please choose an image under 4MB."))
                        st, None)
                else (st, Some file))
               = (if (size file0 >? 4 * 1024 * 1024)%Z
                  then (App.setError
                          (Some (lit "Image size too large. Please choose an image under 4MB."))
                          st, None)
                  else (st, Some file0))).
    { intros file others others' Heq. injection Heq as <- _. reflexivity. }
    destruct (size file0 >? 4 * 1024 * 1024)%Z eqn:Hsize; cbn [fst snd].
    + split; [intros [Hn | Hn]; discriminate|]. split; [repeat split|].
      split; [discriminate | exact Hfirst].
    + split; [intros [Hn | Hn]; discriminate|]. split; [repeat split|].
      split; [|exact Hfirst].
      intros file Hfile. injection Hfile as <-.
      split; [reflexivity|]. split.
      * rewrite Z.gtb_ltb in Hsize. apply Z.ltb_ge in Hsize. exact Hsize.
      * exists others0. reflexivity.
  - split; [reflexivity|]. split; [repeat split|].
    split; [discriminate|]. intros file others others' Heq. discriminate.
Qed.

(** ** The name of the download *)

Lemma lit_inj (s s' : string) : lit s = lit s' -> s = s'.
Proof.
  unfold lit. intro Heq.
  rewrite <- (string_of_list_ascii_of_string s),
    <- (string_of_list_ascii_of_string s').
  f_equal.
  revert Heq. generalize (list_ascii_of_string s) (list_ascii_of_string s').
  induction l as [|a l IH]; intros [|a' l']; cbn; try discriminate;
    [reflexivity|].
  intro Heq. injection Heq as Ha Hl. f_equal; [|exact (IH _ Hl)].
  rewrite <- (ascii_N_embedding a), <- (ascii_N_embedding a'), Ha.
  reflexivity.
Qed.

Lemma decimal_inj (n n' : Z) : decimal n = decimal n' -> n = n'.
Proof.
  unfold decimal. intro Heq. apply lit_inj in Heq.
  apply DecimalZ.to_int_inj.
  assert (Hsome : Some (Z.to_int n) = Some (Z.to_int n'))
    by (rewrite <- !NilEmpty.isi, Heq; reflexivity).
  injection Hsome as ->. reflexivity.
Qed.

(** X22.  The name under which an export is downloaded tells the kind and
    the time apart: two names are equal only for the same kind and the same
    millisecond. *)
Theorem downloadName_injective (type type' : ExportType) (now now' : Z) :
  downloadName type now = downloadName type' now' ->
  type = type' /\ now = now'.
Proof.
  unfold downloadName. intro Heq. apply app_inv_head in Heq.
  assert (Htype : type = type').
  { destruct type, type'; try reflexivity;
      cbn [exportTypeName] in Heq;
      apply (f_equal (@List.hd N 0%N)) in Heq; discriminate Heq. }
  subst type'. split; [reflexivity|].
  apply app_inv_head in Heq. apply app_inv_head in Heq.
  apply app_inv_tail in Heq. exact (decimal_inj _ _ Heq).
Qed.

Lemma downloadName_injective_witness :
  downloadName cover 1730541600000 = lit "wechat-cover-1730541600000.png"
  /\ downloadName cover 1730541600000 <> downloadName thumb 1730541600000
  /\ downloadName cover 1730541600000 <> downloadName cover 1730541600001.
Proof.
  split; [reflexivity|].
  split; intro Heq; apply downloadName_injective in Heq;
    destruct Heq as [Htype Hnow]; discriminate.
Defined.

(** ** The feed preview against the export *)


